(** * Atlantis: the project command runner and the GitHub approval check

    A shallow embedding of
      - [server/events/project_command_runner.go]: [Plan], [Apply], [doPlan],
        [doApply], [runSteps] and the two default stages;
      - [server/events/vcs/github_client.go]: [PullIsApproved],
        [GetPullRequest], [GetModifiedFiles], [CreateComment] and
        [UpdateStatus].

    The runner is wired to its collaborators (project locker, working
    directory, working-directory locker, step runners, approval checker,
    webhook sender, lock URL generator) through interfaces.  A collaborator is
    embedded as a function on an abstract world [W] chosen by whoever
    instantiates the runner, so that it may answer differently on each call.
    Every call the runner makes is appended to a trace; statements such as
    "no step runs" or "the lock is released" are statements about that
    trace. *)

From Stdlib Require Import String Ascii List ZArith Lia Bool.
Import ListNotations.
Local Open Scope string_scope.
Local Open Scope list_scope.

(** ** Go values used by the code *)

(** A Go [error] value.  The code only ever reads an error through
    [Error()] (the [%s] verb of [fmt.Errorf], [errors.Wrap]) and through
    [os.IsNotExist]; [nil] is [None] of [option error]. *)
Record error : Type := mkError {
  Error_ : string;
  notExist : bool
}.

(** The newline of the Go literals ["\n"]. *)
Definition nl : string := String (ascii_of_nat 10) EmptyString.

Module errors.
(** [errors.New(message)]. *)
Definition New (message : string) : error :=
  {| Error_ := message; notExist := false |}.

(** [errors.Wrap(err, message)] for a non-nil [err]: the message is
    prefixed and the result is a new error value, one that
    [os.IsNotExist] does not recognise. *)
Definition Wrap (err : error) (message : string) : error :=
  {| Error_ := message ++ ": " ++ Error_ err; notExist := false |}.
End errors.

Module os.
(** [os.IsNotExist(err)]. *)
Definition IsNotExist (err : error) : bool := notExist err.
End os.

Module strings.
(** [strings.Join(elems, sep)]. *)
Fixpoint Join (elems : list string) (sep : string) : string :=
  match elems with
  | [] => ""
  | [x] => x
  | x :: rest => x ++ sep ++ Join rest sep
  end.
End strings.

Module fmt.
(** [fmt.Errorf("%s\n%s", a, b)], the one format the runner uses. *)
Definition Errorf_s_nl_s (a : error) (b : string) : error :=
  {| Error_ := Error_ a ++ nl ++ b; notExist := false |}.
End fmt.

(** ** The models and configuration the runner reads *)

Record Repo : Type := mkRepo {
  FullName : string;
  Owner : string;
  Name : string
}.

Record PullRequest : Type := mkPullRequest {
  Num : Z;
  HeadCommit : string
}.

Record User : Type := mkUser { Username : string }.

(** [models.Project], as built by [models.NewProject]. *)
Record Project : Type := mkProject {
  RepoFullName : string;
  Path : string
}.

(** [valid.Step]. *)
Record Step : Type := mkStep {
  StepName : string;
  ExtraArgs : list string;
  RunCommand : list string
}.

(** [valid.Stage]. *)
Record Stage : Type := mkStage { Steps : list Step }.

(** The project configuration ([*valid.Project]): its [Workflow] is a
    [*string]. *)
Record ProjectConfig_ : Type := mkProjectConfig {
  Workflow : option string;
  ApplyRequirements : list string
}.

(** The global configuration.  Its type is declared outside the two files
    embedded here; the runner only calls [GetPlanStage] and [GetApplyStage]
    on it, each returning a [*valid.Stage]. *)
Record GlobalConfig_ : Type := mkGlobalConfig {
  GetPlanStage : string -> option Stage;
  GetApplyStage : string -> option Stage
}.

(** [models.ProjectCommandContext].  [GetProjectName] stands for the result
    of the method of that name, which is declared with the type. *)
Record ProjectCommandContext : Type := mkCtx {
  BaseRepo : Repo;
  HeadRepo : Repo;
  Pull : PullRequest;
  User_ : User;
  Workspace : string;
  RepoRelDir : string;
  ProjectConfig : option ProjectConfig_;
  GlobalConfig : GlobalConfig_;
  RebaseRepo : bool;
  RePlanCmd : string;
  ApplyCmd : string;
  GetProjectName : string
}.

(** [webhooks.ApplyResult]. *)
Record ApplyResult : Type := mkApplyResult {
  ar_Workspace : string;
  ar_User : User;
  ar_Repo : Repo;
  ar_Pull : PullRequest;
  ar_Success : bool
}.

(** [PlanSuccess]. *)
Record PlanSuccess_ : Type := mkPlanSuccess {
  TerraformOutput : string;
  LockURL : string;
  ps_RePlanCmd : string;
  ps_ApplyCmd : string
}.

(** [ProjectResult], with the six fields [Plan] and [Apply] fill in.
    [PlanSuccess] is a pointer, [Error] an [error], the other two are
    strings. *)
Record ProjectResult : Type := mkProjectResult {
  PlanSuccess : option PlanSuccess_;
  ApplySuccess : string;
  Failure : string;
  Error : option error;
  pr_RepoRelDir : string;
  pr_Workspace : string;
  pr_ProjectName : string
}.

(** Modelled from the spec: the constant [raw.ApprovedApplyRequirement],
    declared in the yaml package; the spec names the requirement
    "approved". *)
Definition ApprovedApplyRequirement : string := "approved".

(** ** The trace of collaborator calls *)

(** Which of the four step runners of the struct a step is dispatched to. *)
Inductive RunnerField : Type :=
| InitStepRunner_
| PlanStepRunner_
| ApplyStepRunner_
| RunStepRunner_.

Inductive Event : Type :=
| EvLogDebug (format : string) (args : list string)
| EvLogErr (format : string) (args : list string)
| EvLockerTryLock (pull : PullRequest) (user : User) (workspace : string)
                  (project : Project)
| EvProjectUnlock
| EvWorkingDirTryLock (repoFullName : string) (pullNum : Z)
                      (workspace : string)
| EvWorkingDirUnlock
| EvClone (baseRepo headRepo : Repo) (p : PullRequest) (rebase : bool)
          (workspace : string)
| EvGetWorkingDir (r : Repo) (p : PullRequest) (workspace : string)
| EvRun (runner : RunnerField) (extraArgs : list string) (path : string)
| EvPullIsApproved (repo : Repo) (pull : PullRequest)
| EvWebhooksSend (res : ApplyResult)
| EvGenerateLockURL (lockID : string).

(** Is the event a step runner's [Run]? *)
Definition is_run (e : Event) : bool :=
  match e with EvRun _ _ _ => true | _ => false end.

(** Is the event a [TryLock] on the working-directory locker? *)
Definition is_workdir_trylock (e : Event) : bool :=
  match e with EvWorkingDirTryLock _ _ _ => true | _ => false end.

(** Is the event a call of the project lock's release function? *)
Definition is_project_unlock (e : Event) : bool :=
  match e with EvProjectUnlock => true | _ => false end.

(** Is the event a [Clone]? *)
Definition is_clone (e : Event) : bool :=
  match e with EvClone _ _ _ _ _ => true | _ => false end.

(** ** State passing *)

(** The state a call runs in: the collaborators' world and the trace of the
    calls made so far. *)
Record State (W : Type) : Type := mkState {
  world : W;
  trace : list Event
}.
Arguments mkState {W} _ _.
Arguments world {W} _.
Arguments trace {W} _.

Definition M (W A : Type) : Type := State W -> A * State W.

Definition ret {W A : Type} (a : A) : M W A := fun s => (a, s).

Definition bind {W A B : Type} (m : M W A) (k : A -> M W B) : M W B :=
  fun s => let (a, s') := m s in k a s'.

(** Record [e] in the trace. *)
Definition emit {W : Type} (e : Event) : M W unit :=
  fun s => (tt, {| world := world s; trace := trace s ++ [e] |}).

(** Call a collaborator: the call is recorded and the collaborator acts on
    the world. *)
Definition call {W A : Type} (e : Event) (f : W -> A * W) : M W A :=
  fun s =>
    let (a, w') := f (world s) in
    (a, {| world := w'; trace := trace s ++ [e] |}).

(** Go's [defer f()] around the rest of a function body: [f] runs once the
    body has produced its return values, on every exit. *)
Definition defer {W A : Type} (f : M W unit) (body : M W A) : M W A :=
  bind body (fun r => bind f (fun _ => ret r)).

Declare Scope go_scope.
Delimit Scope go_scope with go.
Notation "x <- m ;; k" := (bind m (fun x => k))
  (at level 61, m at next level, right associativity) : go_scope.
Notation "' pat <- m ;; k" := (bind m (fun x => match x with pat => k end))
  (at level 61, pat pattern, m at next level, right associativity) : go_scope.
Notation "m ;;; k" := (bind m (fun _ => k))
  (at level 61, right associativity) : go_scope.

(** ** The collaborators *)

(** The outcome of [ProjectLocker.TryLock].  [UnlockFn] is a closure
    returning an [error]. *)
Record LockAttempt (W : Type) : Type := mkLockAttempt {
  LockAcquired : bool;
  LockFailureReason : string;
  UnlockFn : W -> option error * W;
  LockKey : string
}.
Arguments mkLockAttempt {W} _ _ _ _.
Arguments LockAcquired {W} _.
Arguments LockFailureReason {W} _.
Arguments UnlockFn {W} _.
Arguments LockKey {W} _.

(** [StepRunner]. *)
Record StepRunner (W : Type) : Type := mkStepRunner {
  Run : ProjectCommandContext -> list string -> string ->
        W -> (string * option error) * W
}.
Arguments mkStepRunner {W} _.
Arguments Run {W} _ _ _ _ _.

(** The part of the [WorkingDir] interface the runner calls. *)
Record WorkingDir_ (W : Type) : Type := mkWorkingDir {
  Clone : Repo -> Repo -> PullRequest -> bool -> string ->
          W -> (string * option error) * W;
  GetWorkingDir : Repo -> PullRequest -> string ->
                  W -> (string * option error) * W
}.
Arguments mkWorkingDir {W} _ _.
Arguments Clone {W} _ _ _ _ _ _ _.
Arguments GetWorkingDir {W} _ _ _ _ _.

(** [DefaultProjectCommandRunner].  [Locker] is the [TryLock] of the
    project locker, [WorkingDirLocker] the [TryLock] of the working-directory
    locker (it returns the release closure and an error),
    [LockURLGenerator] is [GenerateLockURL], [PullApprovedChecker] is
    [PullIsApproved] and [Webhooks] is [Send]. *)
Record DefaultProjectCommandRunner (W : Type) : Type := mkRunner {
  Locker : PullRequest -> User -> string -> Project ->
           W -> (LockAttempt W * option error) * W;
  LockURLGenerator : string -> W -> string * W;
  InitStepRunner : StepRunner W;
  PlanStepRunner : StepRunner W;
  ApplyStepRunner : StepRunner W;
  RunStepRunner : StepRunner W;
  PullApprovedChecker : Repo -> PullRequest -> W -> (bool * option error) * W;
  WorkingDir : WorkingDir_ W;
  Webhooks : ApplyResult -> W -> option error * W;
  WorkingDirLocker : string -> Z -> string ->
                     W -> ((W -> W) * option error) * W;
  RequireApprovalOverride : bool
}.
Arguments mkRunner {W} _ _ _ _ _ _ _ _ _ _ _.
Arguments Locker {W} _ _ _ _ _ _.
Arguments LockURLGenerator {W} _ _ _.
Arguments InitStepRunner {W} _.
Arguments PlanStepRunner {W} _.
Arguments ApplyStepRunner {W} _.
Arguments RunStepRunner {W} _.
Arguments PullApprovedChecker {W} _ _ _ _.
Arguments WorkingDir {W} _.
Arguments Webhooks {W} _ _ _.
Arguments WorkingDirLocker {W} _ _ _ _ _.
Arguments RequireApprovalOverride {W} _.

(** ** The runner *)

Section Runner.

Variable W : Type.

(** [models.NewProject] and [filepath.Join] are declared outside the files
    embedded here; the runner is embedded for whatever they compute. *)
Variable NewProject : string -> string -> Project.
Variable filepath_Join : string -> string -> string.

Local Open Scope go_scope.

(** [defaultPlanStage]. *)
Definition defaultPlanStage (p : DefaultProjectCommandRunner W) : Stage :=
  {| Steps := [ {| StepName := "init"; ExtraArgs := []; RunCommand := [] |};
                {| StepName := "plan"; ExtraArgs := []; RunCommand := [] |} ] |}.

(** [defaultApplyStage]. *)
Definition defaultApplyStage (p : DefaultProjectCommandRunner W) : Stage :=
  {| Steps := [ {| StepName := "apply"; ExtraArgs := []; RunCommand := [] |} ] |}.

(** The body of the loop of [runSteps] up to the two tests on [out] and
    [err]: the [switch] on the step's name.  A name that matches no case
    leaves [out] and [err] at their zero values. *)
Definition runStep (p : DefaultProjectCommandRunner W)
    (ctx : ProjectCommandContext) (absPath : string) (step : Step)
    : M W (string * option error) :=
  if StepName step =? "init" then
    call (EvRun InitStepRunner_ (ExtraArgs step) absPath)
         (Run (InitStepRunner p) ctx (ExtraArgs step) absPath)
  else if StepName step =? "plan" then
    call (EvRun PlanStepRunner_ (ExtraArgs step) absPath)
         (Run (PlanStepRunner p) ctx (ExtraArgs step) absPath)
  else if StepName step =? "apply" then
    call (EvRun ApplyStepRunner_ (ExtraArgs step) absPath)
         (Run (ApplyStepRunner p) ctx (ExtraArgs step) absPath)
  else if StepName step =? "run" then
    call (EvRun RunStepRunner_ (RunCommand step) absPath)
         (Run (RunStepRunner p) ctx (RunCommand step) absPath)
  else ret ("", None).

(** The [for] loop of [runSteps], with [outputs] as the loop variable. *)
Fixpoint runSteps_loop (p : DefaultProjectCommandRunner W)
    (ctx : ProjectCommandContext) (absPath : string)
    (steps : list Step) (outputs : list string)
    : M W (list string * option error) :=
  match steps with
  | [] => ret (outputs, None)
  | step :: rest =>
      '(out, err) <- runStep p ctx absPath step ;;
      let outputs := if out =? "" then outputs else outputs ++ [out] in
      match err with
      | Some e => ret (outputs, Some e)
      | None => runSteps_loop p ctx absPath rest outputs
      end
  end.

(** [runSteps]. *)
Definition runSteps (p : DefaultProjectCommandRunner W) (steps : list Step)
    (ctx : ProjectCommandContext) (absPath : string)
    : M W (list string * option error) :=
  runSteps_loop p ctx absPath steps [].

(** The call of the project lock's release function on an error exit of
    [doPlan], with the log line for a failed release. *)
Definition unlockAfterPlanError (lockAttempt : LockAttempt W) : M W unit :=
  unlockErr <- call EvProjectUnlock (UnlockFn lockAttempt) ;;
  match unlockErr with
  | Some ue =>
      emit (EvLogErr "error unlocking state after plan error: %v" [Error_ ue])
  | None => ret tt
  end.

(** The choice of the plan stage in [doPlan]: the default stage unless the
    project names a workflow that has a plan stage. *)
Definition planStage (p : DefaultProjectCommandRunner W)
    (ctx : ProjectCommandContext) : M W Stage :=
  let stage := defaultPlanStage p in
  match ProjectConfig ctx with
  | Some cfg =>
      match Workflow cfg with
      | Some wf =>
          emit (EvLogDebug "project configured to use workflow %q" [wf]) ;;;
          match GetPlanStage (GlobalConfig ctx) wf with
          | Some configuredStage =>
              emit (EvLogDebug
                "project will use the configured stage for that workflow" []) ;;;
              ret configuredStage
          | None => ret stage
          end
      | None => ret stage
      end
  | None => ret stage
  end.

(** [doPlan]. *)
Definition doPlan (p : DefaultProjectCommandRunner W)
    (ctx : ProjectCommandContext)
    : M W (option PlanSuccess_ * string * option error) :=
  '(lockAttempt, err) <-
     call (EvLockerTryLock (Pull ctx) (User_ ctx) (Workspace ctx)
             (NewProject (FullName (BaseRepo ctx)) (RepoRelDir ctx)))
          (Locker p (Pull ctx) (User_ ctx) (Workspace ctx)
             (NewProject (FullName (BaseRepo ctx)) (RepoRelDir ctx))) ;;
  match err with
  | Some e => ret (None, "", Some (errors.Wrap e "acquiring lock"))
  | None =>
  if negb (LockAcquired lockAttempt) then
    ret (None, LockFailureReason lockAttempt, None)
  else
  emit (EvLogDebug "acquired lock for project" []) ;;;
  '(unlockFn, err) <-
     call (EvWorkingDirTryLock (FullName (BaseRepo ctx)) (Num (Pull ctx))
             (Workspace ctx))
          (WorkingDirLocker p (FullName (BaseRepo ctx)) (Num (Pull ctx))
             (Workspace ctx)) ;;
  match err with
  | Some e => ret (None, "", Some e)
  | None =>
  defer (call EvWorkingDirUnlock (fun w => (tt, unlockFn w))) (
  '(repoDir, cloneErr) <-
     call (EvClone (BaseRepo ctx) (HeadRepo ctx) (Pull ctx) (RebaseRepo ctx)
             (Workspace ctx))
          (Clone (WorkingDir p) (BaseRepo ctx) (HeadRepo ctx) (Pull ctx)
             (RebaseRepo ctx) (Workspace ctx)) ;;
  match cloneErr with
  | Some ce =>
      unlockAfterPlanError lockAttempt ;;;
      ret (None, "", Some ce)
  | None =>
  let projAbsPath := filepath_Join repoDir (RepoRelDir ctx) in
  stage <- planStage p ctx ;;
  '(outputs, err) <- runSteps p (Steps stage) ctx projAbsPath ;;
  match err with
  | Some e =>
      unlockAfterPlanError lockAttempt ;;;
      ret (None, "", Some (fmt.Errorf_s_nl_s e (strings.Join outputs nl)))
  | None =>
      lockURL <- call (EvGenerateLockURL (LockKey lockAttempt))
                      (LockURLGenerator p (LockKey lockAttempt)) ;;
      ret (Some {| LockURL := lockURL;
                   TerraformOutput := strings.Join outputs nl;
                   ps_RePlanCmd := RePlanCmd ctx;
                   ps_ApplyCmd := ApplyCmd ctx |}, "", None)
  end
  end)
  end
  end.

(** The requirement list [doApply] evaluates: the project's
    [ApplyRequirements] when there is a project configuration, replaced by
    the single server-side requirement when [RequireApprovalOverride] is
    set. *)
Definition applyRequirements (p : DefaultProjectCommandRunner W)
    (ctx : ProjectCommandContext) : list string :=
  let applyRequirements :=
    match ProjectConfig ctx with
    | Some cfg => ApplyRequirements cfg
    | None => []
    end in
  if RequireApprovalOverride p then [ApprovedApplyRequirement]
  else applyRequirements.

(** The [for] loop of [doApply] over the requirements.  [Some r] is an
    early [return r] out of [doApply]; [None] is the loop running to its
    end. *)
Fixpoint checkRequirements (p : DefaultProjectCommandRunner W)
    (ctx : ProjectCommandContext) (reqs : list string)
    : M W (option (string * string * option error)) :=
  match reqs with
  | [] => ret None
  | req :: rest =>
      if req =? ApprovedApplyRequirement then
        '(approved, err) <-
           call (EvPullIsApproved (BaseRepo ctx) (Pull ctx))
                (PullApprovedChecker p (BaseRepo ctx) (Pull ctx)) ;;
        match err with
        | Some e =>
            ret (Some ("", "",
                   Some (errors.Wrap e "checking if pull request was approved")))
        | None =>
            if negb approved then
              ret (Some ("",
                     "Pull request must be approved before running apply.",
                     None))
            else checkRequirements p ctx rest
        end
      else checkRequirements p ctx rest
  end.

(** The choice of the apply stage in [doApply]. *)
Definition applyStage (p : DefaultProjectCommandRunner W)
    (ctx : ProjectCommandContext) : Stage :=
  let stage := defaultApplyStage p in
  match ProjectConfig ctx with
  | Some cfg =>
      match Workflow cfg with
      | Some wf =>
          match GetApplyStage (GlobalConfig ctx) wf with
          | Some configuredStage => configuredStage
          | None => stage
          end
      | None => stage
      end
  | None => stage
  end.

(** [doApply]; the triple is [(applyOut, failure, err)]. *)
Definition doApply (p : DefaultProjectCommandRunner W)
    (ctx : ProjectCommandContext)
    : M W (string * string * option error) :=
  '(repoDir, err) <-
     call (EvGetWorkingDir (BaseRepo ctx) (Pull ctx) (Workspace ctx))
          (GetWorkingDir (WorkingDir p) (BaseRepo ctx) (Pull ctx)
             (Workspace ctx)) ;;
  match err with
  | Some e =>
      if os.IsNotExist e then
        ret ("", "",
             Some (errors.New "project has not been cloned–did you run plan?"))
      else ret ("", "", Some e)
  | None =>
  let absPath := filepath_Join repoDir (RepoRelDir ctx) in
  early <- checkRequirements p ctx (applyRequirements p ctx) ;;
  match early with
  | Some r => ret r
  | None =>
  '(unlockFn, err) <-
     call (EvWorkingDirTryLock (FullName (BaseRepo ctx)) (Num (Pull ctx))
             (Workspace ctx))
          (WorkingDirLocker p (FullName (BaseRepo ctx)) (Num (Pull ctx))
             (Workspace ctx)) ;;
  match err with
  | Some e => ret ("", "", Some e)
  | None =>
  defer (call EvWorkingDirUnlock (fun w => (tt, unlockFn w))) (
  let stage := applyStage p ctx in
  '(outputs, err) <- runSteps p (Steps stage) ctx absPath ;;
  call (EvWebhooksSend {| ar_Workspace := Workspace ctx;
                          ar_User := User_ ctx;
                          ar_Repo := BaseRepo ctx;
                          ar_Pull := Pull ctx;
                          ar_Success := match err with
                                        | None => true
                                        | Some _ => false
                                        end |})
       (Webhooks p {| ar_Workspace := Workspace ctx;
                      ar_User := User_ ctx;
                      ar_Repo := BaseRepo ctx;
                      ar_Pull := Pull ctx;
                      ar_Success := match err with
                                    | None => true
                                    | Some _ => false
                                    end |}) ;;;
  match err with
  | Some e =>
      ret ("", "", Some (fmt.Errorf_s_nl_s e (strings.Join outputs nl)))
  | None => ret (strings.Join outputs nl, "", None)
  end)
  end
  end
  end.

(** [Plan]: [ApplySuccess] is left at its zero value. *)
Definition Plan (p : DefaultProjectCommandRunner W)
    (ctx : ProjectCommandContext) : M W ProjectResult :=
  '(planSuccess, failure, err) <- doPlan p ctx ;;
  ret {| PlanSuccess := planSuccess;
         Error := err;
         Failure := failure;
         ApplySuccess := "";
         pr_RepoRelDir := RepoRelDir ctx;
         pr_Workspace := Workspace ctx;
         pr_ProjectName := GetProjectName ctx |}.

(** [Apply]: [PlanSuccess] is left at its zero value. *)
Definition Apply (p : DefaultProjectCommandRunner W)
    (ctx : ProjectCommandContext) : M W ProjectResult :=
  '(applyOut, failure, err) <- doApply p ctx ;;
  ret {| Failure := failure;
         Error := err;
         ApplySuccess := applyOut;
         PlanSuccess := None;
         pr_RepoRelDir := RepoRelDir ctx;
         pr_Workspace := Workspace ctx;
         pr_ProjectName := GetProjectName ctx |}.

End Runner.

Arguments runStep {W} _ _ _ _.
Arguments runSteps_loop {W} _ _ _ _ _.
Arguments runSteps {W} _ _ _ _.
Arguments unlockAfterPlanError {W} _.
Arguments planStage {W} _ _.
Arguments doPlan {W} _ _ _ _.
Arguments applyRequirements {W} _ _.
Arguments checkRequirements {W} _ _ _.
Arguments applyStage {W} _ _.
Arguments doApply {W} _ _ _.
Arguments Plan {W} _ _ _ _.
Arguments Apply {W} _ _ _.
Arguments defaultPlanStage {W} _.
Arguments defaultApplyStage {W} _.

(** ** What the claims speak of *)

(** The number of populated fields among plan-success, apply-success,
    failure reason and error: a pointer or an [error] is populated when it
    is not [nil], a string when it is not empty. *)
Definition populated (r : ProjectResult) : nat :=
  (match PlanSuccess r with Some _ => 1 | None => 0 end) +
  (if ApplySuccess r =? "" then 0 else 1) +
  (if Failure r =? "" then 0 else 1) +
  (match Error r with Some _ => 1 | None => 0 end).

(** [msg] holds [first] and, somewhere after it, [second]. *)
Definition precedes_in (first second msg : string) : Prop :=
  exists pre mid post : string,
    msg = (pre ++ first ++ mid ++ second ++ post)%string.

(** The outputs [runSteps] keeps: the non-empty ones. *)
Definition nonEmptyOutputs (outs : list string) : list string :=
  filter (fun out => negb (out =? "")) outs.

(** The steps of a sequence run one after the other, each to its end and
    none skipped, whatever they return: the list of what they returned. *)
Fixpoint runEach {W : Type} (p : DefaultProjectCommandRunner W)
    (ctx : ProjectCommandContext) (absPath : string) (steps : list Step)
    : M W (list (string * option error)) :=
  match steps with
  | [] => ret []
  | step :: rest =>
      bind (runStep p ctx absPath step) (fun r =>
      bind (runEach p ctx absPath rest) (fun rs => ret (r :: rs)))
  end.

(** The calls of [doPlan] and [doApply] as they show in the trace, with the
    arguments the code passes. *)
Definition evLockerTryLock (NewProject : string -> string -> Project)
    (ctx : ProjectCommandContext) : Event :=
  EvLockerTryLock (Pull ctx) (User_ ctx) (Workspace ctx)
    (NewProject (FullName (BaseRepo ctx)) (RepoRelDir ctx)).

Definition evWorkingDirTryLock (ctx : ProjectCommandContext) : Event :=
  EvWorkingDirTryLock (FullName (BaseRepo ctx)) (Num (Pull ctx))
    (Workspace ctx).

Definition evClone (ctx : ProjectCommandContext) : Event :=
  EvClone (BaseRepo ctx) (HeadRepo ctx) (Pull ctx) (RebaseRepo ctx)
    (Workspace ctx).

Definition evGetWorkingDir (ctx : ProjectCommandContext) : Event :=
  EvGetWorkingDir (BaseRepo ctx) (Pull ctx) (Workspace ctx).

Definition evPullIsApproved (ctx : ProjectCommandContext) : Event :=
  EvPullIsApproved (BaseRepo ctx) (Pull ctx).

(** What [doPlan] has called once the clone has returned. *)
Definition planReached (NewProject : string -> string -> Project)
    (ctx : ProjectCommandContext) : list Event :=
  [ evLockerTryLock NewProject ctx;
    EvLogDebug "acquired lock for project" [];
    evWorkingDirTryLock ctx;
    evClone ctx ].

(** The failure reason of [doApply] for a pull request that is not
    approved. *)
Definition mustBeApproved : string :=
  "Pull request must be approved before running apply.".

(** The error of [doApply] for a working directory that does not exist. *)
Definition notCloned : error :=
  errors.New "project has not been cloned–did you run plan?".

(** A [ProjectResult] with the given failure and error and no success
    payload, for the request [ctx]. *)
Definition unsuccessful (ctx : ProjectCommandContext) (failure : string)
    (err : option error) : ProjectResult :=
  {| PlanSuccess := None;
     ApplySuccess := "";
     Failure := failure;
     Error := err;
     pr_RepoRelDir := RepoRelDir ctx;
     pr_Workspace := Workspace ctx;
     pr_ProjectName := GetProjectName ctx |}.

(** The call a step is dispatched to by the [switch] of [runSteps], as it
    shows in the trace; none for a name without a case. *)
Definition dispatch (absPath : string) (step : Step) : list Event :=
  if StepName step =? "init" then
    [EvRun InitStepRunner_ (ExtraArgs step) absPath]
  else if StepName step =? "plan" then
    [EvRun PlanStepRunner_ (ExtraArgs step) absPath]
  else if StepName step =? "apply" then
    [EvRun ApplyStepRunner_ (ExtraArgs step) absPath]
  else if StepName step =? "run" then
    [EvRun RunStepRunner_ (RunCommand step) absPath]
  else [].

(** A step name the [switch] of [runSteps] has a case for. *)
Definition knownStepName (name : string) : bool :=
  (name =? "init") || (name =? "plan") || (name =? "apply") || (name =? "run").

(** ** The GitHub client *)

Module vcs.

(** How a Go call ends: it returns, or it panics (here always on the
    dereference of a nil pointer). *)
Inductive outcome (A : Type) : Type :=
| Returned (a : A)
| Panicked.
Arguments Returned {A} _.
Arguments Panicked {A}.

(** [github.PullRequest], the fields of the response this file needs.
    Every field of the library's struct is a pointer; [Mergeable] is a
    [*bool], left nil when the API answers [null]. *)
Record github_PullRequest : Type := mkGithubPullRequest {
  Number : option Z;
  Mergeable : option bool
}.

(** [github.PullRequestReview]: [State] is a [*string]. *)
Record github_PullRequestReview : Type := mkGithubReview {
  State_ : option string
}.

(** [GithubClient].  [PullRequests_Get] is [client.PullRequests.Get] without
    the response it returns in the middle, which [GetPullRequest] drops.
    [PullRequests_ListReviews] is the call of the same API client that
    reports the reviews of a pull request. *)
Record GithubClient : Type := mkGithubClient {
  PullRequests_Get :
    string -> string -> Z -> option github_PullRequest * option error;
  PullRequests_ListReviews :
    string -> string -> Z -> list github_PullRequestReview
}.

(** [GetPullRequest]. *)
Definition GetPullRequest (g : GithubClient) (repo : Repo) (num : Z)
    : option github_PullRequest * option error :=
  PullRequests_Get g (Owner repo) (Name repo) num.

(** [PullIsApproved].  [*request.Mergeable] dereferences [request] and then
    its [Mergeable]. *)
Definition PullIsApproved (g : GithubClient) (repo : Repo)
    (pull : PullRequest) : outcome (bool * option error) :=
  let '(request, err) := GetPullRequest g repo (Num pull) in
  match err with
  | Some e => Returned (false, Some e)
  | None =>
      match request with
      | None => Panicked
      | Some r =>
          match Mergeable r with
          | None => Panicked
          | Some b => Returned (b, None)
          end
      end
  end.

(** The approval status of a pull request as GitHub reports it: some review
    of it is in state APPROVED. *)
Definition approvedByReview (g : GithubClient) (repo : Repo)
    (pull : PullRequest) : bool :=
  existsb (fun review =>
             match State_ review with
             | Some s => s =? "APPROVED"
             | None => false
             end)
          (PullRequests_ListReviews g (Owner repo) (Name repo) (Num pull)).

(** A client for one pull request: GitHub answers [Get] with the given
    mergeability and no error, and lists the given review states. *)
Definition clientOf (mergeable : option bool) (reviews : list string)
    : GithubClient :=
  {| PullRequests_Get := fun _ _ num =>
       (Some {| Number := Some num; Mergeable := mergeable |}, None);
     PullRequests_ListReviews := fun _ _ _ =>
       map (fun s => {| State_ := Some s |}) reviews |}.

End vcs.

(** ** A concrete runner *)

Module Demo.

(** The world of the concrete collaborators: which pull request holds the
    project lock, whether the working directory is locked, and whether the
    repository has been cloned. *)
Record World : Type := mkWorld {
  holder : option Z;
  wdLocked : bool;
  cloned : bool
}.

Definition idle : World :=
  {| holder := None; wdLocked := false; cloned := false |}.

(** The project lock is free and another command of the same pull request
    holds the working-directory lock. *)
Definition busyDir : World :=
  {| holder := None; wdLocked := true; cloned := true |}.

Definition afterPlan : World :=
  {| holder := Some 1%Z; wdLocked := false; cloned := true |}.

(** A project locker with one lock: a pull request acquires it when it is
    free or already its own; the release function frees it. *)
Definition locker (pull : PullRequest) (user : User) (workspace : string)
    (project : Project) (w : World)
    : (LockAttempt World * option error) * World :=
  let free :=
    match holder w with
    | None => true
    | Some n => Z.eqb n (Num pull)
    end in
  if free then
    ({| LockAcquired := true;
        LockFailureReason := "";
        UnlockFn := fun w' =>
          (None, {| holder := None; wdLocked := wdLocked w';
                    cloned := cloned w' |});
        LockKey := "key" |}, None,
     {| holder := Some (Num pull); wdLocked := wdLocked w;
        cloned := cloned w |})
  else
    ({| LockAcquired := false;
        LockFailureReason := "This project is currently locked by another pull request.";
        UnlockFn := fun w' => (None, w');
        LockKey := "" |}, None, w).

(** A working-directory locker that fails at once when the lock is held. *)
Definition workingDirLocker (repoFullName : string) (pullNum : Z)
    (workspace : string) (w : World) : ((World -> World) * option error) * World :=
  if wdLocked w then
    (fun w' => w',
     Some (errors.New "the workspace is currently locked by another command"),
     w)
  else
    (fun w' => {| holder := holder w'; wdLocked := false; cloned := cloned w' |},
     None,
     {| holder := holder w; wdLocked := true; cloned := cloned w |}).

Definition workingDir : WorkingDir_ World :=
  {| Clone := fun _ _ _ _ _ w =>
       ("/data/repo", None,
        {| holder := holder w; wdLocked := wdLocked w; cloned := true |});
     GetWorkingDir := fun _ _ _ w =>
       if cloned w then ("/data/repo", None, w)
       else ("", Some {| Error_ := "no such file or directory";
                         notExist := true |}, w) |}.

(** A step runner that always returns the same thing. *)
Definition constRunner (r : string * option error) : StepRunner World :=
  {| Run := fun _ _ _ w => (r, w) |}.

(** The runner, given what each step runner and the approval check return. *)
Definition runner (init plan apply run : string * option error)
    (approved : bool * option error) (override : bool)
    : DefaultProjectCommandRunner World :=
  {| Locker := locker;
     LockURLGenerator := fun lockID w =>
       (("https://atlantis/lock?id=" ++ lockID)%string, w);
     InitStepRunner := constRunner init;
     PlanStepRunner := constRunner plan;
     ApplyStepRunner := constRunner apply;
     RunStepRunner := constRunner run;
     PullApprovedChecker := fun _ _ w => (approved, w);
     WorkingDir := workingDir;
     Webhooks := fun _ w => (None, w);
     WorkingDirLocker := workingDirLocker;
     RequireApprovalOverride := override |}.

Definition NewProject (repoFullName path : string) : Project :=
  {| RepoFullName := repoFullName; Path := path |}.

Definition filepath_Join (a b : string) : string := a ++ "/" ++ b.

Definition repo : Repo :=
  {| FullName := "owner/repo"; Owner := "owner"; Name := "repo" |}.

Definition noWorkflows : GlobalConfig_ :=
  {| GetPlanStage := fun _ => None; GetApplyStage := fun _ => None |}.

(** A request of pull request [n] for the project in directory [dir],
    with the given project configuration. *)
Definition ctxOf (n : Z) (dir : string) (cfg : option ProjectConfig_)
    : ProjectCommandContext :=
  {| BaseRepo := repo;
     HeadRepo := repo;
     Pull := {| Num := n; HeadCommit := "abc123" |};
     User_ := {| Username := "alice" |};
     Workspace := "default";
     RepoRelDir := dir;
     ProjectConfig := cfg;
     GlobalConfig := noWorkflows;
     RebaseRepo := false;
     RePlanCmd := "atlantis plan -d " ++ dir;
     ApplyCmd := "atlantis apply -d " ++ dir;
     GetProjectName := "" |}.

Definition start (w : World) : State World := {| world := w; trace := [] |}.

(** Step runners that all succeed with some output. *)
Definition okRunner (approved : bool * option error) (override : bool)
    : DefaultProjectCommandRunner World :=
  runner ("init ok", None) ("plan ok", None) ("apply ok", None)
         ("run ok", None) approved override.

Definition plan (p : DefaultProjectCommandRunner World)
    (ctx : ProjectCommandContext) : M World ProjectResult :=
  Plan NewProject filepath_Join p ctx.

Definition apply (p : DefaultProjectCommandRunner World)
    (ctx : ProjectCommandContext) : M World ProjectResult :=
  Apply filepath_Join p ctx.

End Demo.

(** ** More events and runners to speak of *)

(** Is the event the release of the working-directory lock? *)
Definition is_workdir_unlock (e : Event) : bool :=
  match e with EvWorkingDirUnlock => true | _ => false end.

(** Is the event a [TryLock] on the project locker? *)
Definition is_locker_trylock (e : Event) : bool :=
  match e with EvLockerTryLock _ _ _ _ => true | _ => false end.

(** Is the event a webhook? *)
Definition is_webhook (e : Event) : bool :=
  match e with EvWebhooksSend _ => true | _ => false end.

(** Is the event a call of the approval checker? *)
Definition is_pull_is_approved (e : Event) : bool :=
  match e with EvPullIsApproved _ _ => true | _ => false end.

(** Is the event a [GenerateLockURL]? *)
Definition is_generate_lock_url (e : Event) : bool :=
  match e with EvGenerateLockURL _ => true | _ => false end.

(** Is the event a line of the log? *)
Definition is_log (e : Event) : bool :=
  match e with EvLogDebug _ _ | EvLogErr _ _ => true | _ => false end.

(** How many events of a trace satisfy [f]. *)
Definition count (f : Event -> bool) (l : list Event) : nat :=
  length (filter f l).

(** The webhook call [doApply] makes when the pipeline returned [err]. *)
Definition evWebhooksSend (ctx : ProjectCommandContext)
    (err : option error) : Event :=
  EvWebhooksSend {| ar_Workspace := Workspace ctx;
                    ar_User := User_ ctx;
                    ar_Repo := BaseRepo ctx;
                    ar_Pull := Pull ctx;
                    ar_Success := match err with
                                  | None => true
                                  | Some _ => false
                                  end |}.

(** The log line of [doPlan] for a release of the project lock that
    failed; nothing for one that succeeded. *)
Definition unlockLog (unlockErr : option error) : list Event :=
  match unlockErr with
  | Some ue =>
      [EvLogErr "error unlocking state after plan error: %v" [Error_ ue]]
  | None => []
  end.

(** The runner [p] with a webhook sender that acts on the world as the one
    of [p] does and never reports an error. *)
Definition withSilentWebhooks {W : Type} (p : DefaultProjectCommandRunner W)
    : DefaultProjectCommandRunner W :=
  {| Locker := Locker p;
     LockURLGenerator := LockURLGenerator p;
     InitStepRunner := InitStepRunner p;
     PlanStepRunner := PlanStepRunner p;
     ApplyStepRunner := ApplyStepRunner p;
     RunStepRunner := RunStepRunner p;
     PullApprovedChecker := PullApprovedChecker p;
     WorkingDir := WorkingDir p;
     Webhooks := fun res w => (None, snd (Webhooks p res w));
     WorkingDirLocker := WorkingDirLocker p;
     RequireApprovalOverride := RequireApprovalOverride p |}.

(** The runner [p] with a webhook sender that acts on the world as the one
    of [p] does and always reports the error [e]. *)
Definition withFailingWebhooks {W : Type} (e : error)
    (p : DefaultProjectCommandRunner W) : DefaultProjectCommandRunner W :=
  {| Locker := Locker p;
     LockURLGenerator := LockURLGenerator p;
     InitStepRunner := InitStepRunner p;
     PlanStepRunner := PlanStepRunner p;
     ApplyStepRunner := ApplyStepRunner p;
     RunStepRunner := RunStepRunner p;
     PullApprovedChecker := PullApprovedChecker p;
     WorkingDir := WorkingDir p;
     Webhooks := fun res w => (Some e, snd (Webhooks p res w));
     WorkingDirLocker := WorkingDirLocker p;
     RequireApprovalOverride := RequireApprovalOverride p |}.

(** No step runner of [p] ever returns an error. *)
Definition stepsNeverFail {W : Type} (p : DefaultProjectCommandRunner W)
    : Prop :=
  forall (r : StepRunner W),
    In r [InitStepRunner p; PlanStepRunner p; ApplyStepRunner p;
          RunStepRunner p] ->
    forall ctx args path w, snd (fst (Run r ctx args path w)) = None.

(** ** The rest of the GitHub client *)

Module github.

(** [github.ListOptions]. *)
Record ListOptions : Type := mkListOptions {
  Page : Z;
  PerPage : Z
}.

(** [github.CommitFile]: [Filename] is a [*string]. *)
Record CommitFile : Type := mkCommitFile { Filename : option string }.

(** The accessor [GetFilename] of a [CommitFile] pointer: the empty string
    for a nil file or a nil [Filename]. *)
Definition GetFilename (f : option CommitFile) : string :=
  match f with
  | Some c => match Filename c with Some s => s | None => "" end
  | None => ""
  end.

(** [github.Response], the field the pagination reads. *)
Record Response : Type := mkResponse { NextPage : Z }.

(** [github.RepoStatus]; the three fields are [*string]. *)
Record RepoStatus : Type := mkRepoStatus {
  State : option string;
  Description : option string;
  Context : option string
}.

(** The calls of [client] that [GetModifiedFiles], [CreateComment] and
    [UpdateStatus] make, each acting on the state [W] of the service:
    [PullRequests.ListFiles] returns the page of files (pointers), the
    response (a pointer) and an error; [Issues.CreateComment] is given the
    body of the comment; [Repositories.CreateStatus] the commit and the
    status.  Of their results the code keeps the error only. *)
Record Client (W : Type) : Type := mkClient {
  PullRequests_ListFiles :
    string -> string -> Z -> ListOptions ->
    W -> (list (option CommitFile) * option Response * option error) * W;
  Issues_CreateComment :
    string -> string -> Z -> string -> W -> option error * W;
  Repositories_CreateStatus :
    string -> string -> string -> RepoStatus -> W -> option error * W
}.
Arguments mkClient {W} _ _ _.
Arguments PullRequests_ListFiles {W} _ _ _ _ _ _.
Arguments Issues_CreateComment {W} _ _ _ _ _ _.
Arguments Repositories_CreateStatus {W} _ _ _ _ _ _.

End github.

Module githubClient.

Import vcs.

(** [maxCommentLength]. *)
Definition maxCommentLength : Z := 65536.

(** The loop of [GetModifiedFiles] with [files] and [nextPage] as its
    variables.  The loop has no bound of its own, so the embedding counts
    its iterations down from [fuel]: [None] is the loop still running when
    the count is used up.  [resp.NextPage] dereferences [resp]. *)
Fixpoint GetModifiedFiles_loop {W : Type} (fuel : nat) (g : github.Client W)
    (repo : Repo) (pull : PullRequest) (nextPage : Z) (files : list string)
    (w : W) : option (outcome (list string * option error) * W) :=
  match fuel with
  | O => None
  | S fuel' =>
      let opts :=
        {| github.PerPage := 300;
           github.Page := if (nextPage =? 0)%Z then 0%Z else nextPage |} in
      let '((pageFiles, resp, err), w') :=
        github.PullRequests_ListFiles g (Owner repo) (Name repo) (Num pull)
          opts w in
      match err with
      | Some e => Some (Returned (files, Some e), w')
      | None =>
          let files := files ++ map github.GetFilename pageFiles in
          match resp with
          | None => Some (Panicked, w')
          | Some r =>
              if (github.NextPage r =? 0)%Z then
                Some (Returned (files, None), w')
              else
                GetModifiedFiles_loop fuel' g repo pull (github.NextPage r)
                  files w'
          end
      end
  end.

(** [GetModifiedFiles]. *)
Definition GetModifiedFiles {W : Type} (fuel : nat) (g : github.Client W)
    (repo : Repo) (pull : PullRequest) (w : W)
    : option (outcome (list string * option error) * W) :=
  GetModifiedFiles_loop fuel g repo pull 0%Z [] w.

(** The two separators of [CreateComment]. *)
Definition sepEnd : string :=
  nl ++ "```" ++ nl ++ "</details>" ++
  nl ++ "<br>" ++ nl ++ nl ++
  "**Warning**: Output length greater than max comment size. Continued in next comment.".

Definition sepStart : string :=
  "Continued from previous comment." ++ nl ++
  "<details><summary>Show Output</summary>" ++ nl ++ nl ++
  "```diff" ++ nl.

(** The loop of [CreateComment] over the comments. *)
Fixpoint CreateComment_loop {W : Type} (g : github.Client W) (repo : Repo)
    (pullNum : Z) (comments : list string) (w : W) : option error * W :=
  match comments with
  | [] => (None, w)
  | c :: rest =>
      let '(err, w') :=
        github.Issues_CreateComment g (Owner repo) (Name repo) pullNum c w in
      match err with
      | Some e => (Some e, w')
      | None => CreateComment_loop g repo pullNum rest w'
      end
  end.

(** [CreateComment].  [common.SplitComment] is declared outside the files
    embedded here; the function is embedded for whatever it computes. *)
Definition CreateComment {W : Type}
    (SplitComment : string -> Z -> string -> string -> list string)
    (g : github.Client W) (repo : Repo) (pullNum : Z) (comment : string)
    (w : W) : option error * W :=
  CreateComment_loop g repo pullNum
    (SplitComment comment maxCommentLength sepEnd sepStart) w.

(** The comments posted one after the other, each whatever the ones before
    returned: the list of what the posts returned. *)
Fixpoint postEach {W : Type} (g : github.Client W) (repo : Repo)
    (pullNum : Z) (comments : list string) (w : W)
    : list (option error) * W :=
  match comments with
  | [] => ([], w)
  | c :: rest =>
      let '(err, w') :=
        github.Issues_CreateComment g (Owner repo) (Name repo) pullNum c w in
      let '(errs, w'') := postEach g repo pullNum rest w' in
      (err :: errs, w'')
  end.

(** The [switch] of [UpdateStatus] on the commit status.  The three
    constants of [models.CommitStatus] are declared outside the files
    embedded here and are taken as they come. *)
Definition ghState (PendingCommitStatus SuccessCommitStatus
    FailedCommitStatus : Z) (state : Z) : string :=
  if (state =? PendingCommitStatus)%Z then "pending"
  else if (state =? SuccessCommitStatus)%Z then "success"
  else if (state =? FailedCommitStatus)%Z then "failure"
  else "error".

(** [UpdateStatus]. *)
Definition UpdateStatus {W : Type} (PendingCommitStatus SuccessCommitStatus
    FailedCommitStatus : Z) (g : github.Client W) (repo : Repo)
    (pull : PullRequest) (state : Z) (description : string) (w : W)
    : option error * W :=
  let statusContext := "Atlantis" in
  let status :=
    {| github.State := Some (ghState PendingCommitStatus SuccessCommitStatus
                               FailedCommitStatus state);
       github.Description := Some description;
       github.Context := Some statusContext |} in
  github.Repositories_CreateStatus g (Owner repo) (Name repo)
    (HeadCommit pull) status w.

(** The pages a service serves from page [page] on in the state [w]: each
    but the last names a next page, the last names none, and none fails.
    A page is its files and the next page it names. *)
Fixpoint serves {W : Type} (g : github.Client W) (repo : Repo)
    (pull : PullRequest) (page : Z) (w : W)
    (pages : list (list (option github.CommitFile) * Z)) (wEnd : W) : Prop :=
  match pages with
  | [] => False
  | (pageFiles, next) :: rest =>
      exists w',
        github.PullRequests_ListFiles g (Owner repo) (Name repo) (Num pull)
          {| github.PerPage := 300; github.Page := page |} w
        = ((pageFiles, Some {| github.NextPage := next |}, None), w') /\
        match rest with
        | [] => next = 0%Z /\ w' = wEnd
        | _ :: _ => next <> 0%Z /\ serves g repo pull next w' rest wEnd
        end
  end.

(** A service of pages kept in a list: the state is the number of requests
    served, page [0] and page [1] are the first page, and a page past the
    end is an error. *)
Definition scripted (pages : list (list string * Z)) : github.Client nat :=
  {| github.PullRequests_ListFiles := fun _ _ _ opts served =>
       match nth_error pages (Z.to_nat (Z.max 1 (github.Page opts)) - 1) with
       | Some (names, next) =>
           ((map (fun s => Some {| github.Filename := Some s |}) names,
             Some {| github.NextPage := next |}, None), S served)
       | None => (([], None, Some (errors.New "404 Not Found")), S served)
       end;
     github.Issues_CreateComment := fun _ _ _ body served =>
       if (String.length body <=? 10)%nat then (None, S served)
       else (Some (errors.New "422 Unprocessable Entity"), S served);
     github.Repositories_CreateStatus := fun _ _ _ _ served =>
       (None, S served) |}.

End githubClient.

(** ** More concrete collaborators *)

Module DemoMore.

(** The concrete runner with a project locker that cannot reach its
    store. *)
Definition unreachableLocker : DefaultProjectCommandRunner Demo.World :=
  {| Locker := fun _ _ _ _ w =>
       ({| LockAcquired := false;
           LockFailureReason := "";
           UnlockFn := fun w' => (None, w');
           LockKey := "" |},
        Some (errors.New "connection refused"), w);
     LockURLGenerator := LockURLGenerator (Demo.okRunner (true, None) false);
     InitStepRunner := Demo.constRunner ("init ok", None);
     PlanStepRunner := Demo.constRunner ("plan ok", None);
     ApplyStepRunner := Demo.constRunner ("apply ok", None);
     RunStepRunner := Demo.constRunner ("run ok", None);
     PullApprovedChecker := fun _ _ w => ((true, None), w);
     WorkingDir := Demo.workingDir;
     Webhooks := fun _ w => (None, w);
     WorkingDirLocker := Demo.workingDirLocker;
     RequireApprovalOverride := false |}.

(** A project configuration that asks for approval twice and for
    something the runner does not know. *)
Definition twiceApproved : ProjectConfig_ :=
  {| Workflow := None;
     ApplyRequirements := ["approved"; "mergeable"; "approved"] |}.

(** The release closure the concrete working-directory locker returns. *)
Definition release (w : Demo.World) : Demo.World :=
  {| Demo.holder := Demo.holder w; Demo.wdLocked := false;
     Demo.cloned := Demo.cloned w |}.


Definition pull7 : PullRequest := {| Num := 7; HeadCommit := "abc123" |}.

End DemoMore.

(** The pages a service serves from page [page] on in the state [w] when
    every one of them names a next page and the request after the last of
    them fails with [e]. *)
Fixpoint servesThenFails {W : Type} (g : github.Client W) (repo : Repo)
    (pull : PullRequest) (page : Z) (w : W)
    (pages : list (list (option github.CommitFile) * Z)) (e : error)
    (wEnd : W) : Prop :=
  match pages with
  | [] =>
      exists pageFiles resp,
        github.PullRequests_ListFiles g (Owner repo) (Name repo) (Num pull)
          {| github.PerPage := 300; github.Page := page |} w
        = ((pageFiles, resp, Some e), wEnd)
  | (pageFiles, next) :: rest =>
      exists w',
        github.PullRequests_ListFiles g (Owner repo) (Name repo) (Num pull)
          {| github.PerPage := 300; github.Page := page |} w
        = ((pageFiles, Some {| github.NextPage := next |}, None), w') /\
        next <> 0%Z /\
        servesThenFails g repo pull next w' rest e wEnd
  end.

(** The file names of served pages, page after page. *)
Definition namesOf (pages : list (list (option github.CommitFile) * Z))
    : list string :=
  flat_map (fun page => map github.GetFilename (fst page)) pages.

(** ** The pipeline in terms of the step runners themselves *)

(** The executor a step names: which step runner of [p] and which of the
    step's argument lists it is given ([ExtraArgs], or [RunCommand] for a
    run step); none for any other name. *)
Definition executorOf {W : Type} (p : DefaultProjectCommandRunner W)
    (step : Step) : option (RunnerField * StepRunner W * list string) :=
  if StepName step =? "init" then
    Some (InitStepRunner_, InitStepRunner p, ExtraArgs step)
  else if StepName step =? "plan" then
    Some (PlanStepRunner_, PlanStepRunner p, ExtraArgs step)
  else if StepName step =? "apply" then
    Some (ApplyStepRunner_, ApplyStepRunner p, ExtraArgs step)
  else if StepName step =? "run" then
    Some (RunStepRunner_, RunStepRunner p, RunCommand step)
  else None.

(** Every step of a sequence executed, one after the other in the order of
    the sequence and none skipped on account of an earlier one: the executor
    of each step is run on the world the step before left and its call is
    added to the trace; a step without an executor returns the empty output
    and no error and leaves the state alone.  The result is what the steps
    returned, in order, and the final state. *)
Fixpoint executeInOrder {W : Type} (p : DefaultProjectCommandRunner W)
    (ctx : ProjectCommandContext) (absPath : string) (steps : list Step)
    (st : State W) : list (string * option error) * State W :=
  match steps with
  | [] => ([], st)
  | step :: rest =>
      match executorOf p step with
      | Some (field, runner, args) =>
          let '(r, w') := Run runner ctx args absPath (world st) in
          let '(rs, st') :=
            executeInOrder p ctx absPath rest
              {| world := w';
                 trace := trace st ++ [EvRun field args absPath] |} in
          (r :: rs, st')
      | None =>
          let '(rs, st') := executeInOrder p ctx absPath rest st in
          (("", None) :: rs, st')
      end
  end.

(** * The step pipeline *)

Section StepPipeline.

Variable W : Type.
Variable p : DefaultProjectCommandRunner W.
Variable ctx : ProjectCommandContext.
Variable absPath : string.

(** One step leaves in the trace exactly the call it is dispatched to. *)
Lemma runStep_trace (step : Step) (st : State W) :
  trace (snd (runStep p ctx absPath step st)) = trace st ++ dispatch absPath step.
Proof.
  unfold runStep, dispatch.
  repeat match goal with
         | |- context [if ?b then _ else _] => destruct b
         end;
    unfold call, ret; simpl;
    try match goal with
        | |- context [Run ?r ?c ?a ?q ?w] => destruct (Run r c a q w)
        end;
    simpl; auto using app_nil_r.
Qed.

(** Steps run one after the other leave their calls in the trace in the
    order of the steps. *)
Lemma runEach_trace (steps : list Step) (st : State W) :
  trace (snd (runEach p ctx absPath steps st))
  = trace st ++ flat_map (dispatch absPath) steps.
Proof.
  revert st; induction steps as [|step rest IH]; intros st; simpl.
  - unfold ret; simpl. symmetry; apply app_nil_r.
  - unfold bind at 1.
    pose proof (runStep_trace step st) as Hs.
    destruct (runStep p ctx absPath step st) as [r st1]; simpl in Hs.
    unfold bind at 1.
    specialize (IH st1).
    destruct (runEach p ctx absPath rest st1) as [rs st2]; simpl in *.
    unfold ret; simpl. rewrite IH, Hs. now rewrite app_assoc.
Qed.

(** What the loop appends for one step. *)
Lemma keep_nonEmpty (acc : list string) (out : string) :
  (if out =? "" then acc else acc ++ [out]) = acc ++ nonEmptyOutputs [out].
Proof.
  unfold nonEmptyOutputs; simpl.
  destruct (out =? ""); simpl; auto using app_nil_r.
Qed.

(** The loop of [runSteps] from any accumulated outputs: it runs a prefix
    of the steps, each to its end; it keeps the non-empty outputs of that
    prefix after the ones it started with; and the prefix is the whole
    sequence unless its last step failed. *)
Lemma runSteps_loop_prefix (steps : list Step) :
  forall (acc : list string) (st : State W) outs err st',
    runSteps_loop p ctx absPath steps acc st = ((outs, err), st') ->
    exists (n : nat) (results : list (string * option error)),
      n <= length steps /\
      runEach p ctx absPath (firstn n steps) st = (results, st') /\
      outs = acc ++ nonEmptyOutputs (map fst results) /\
      match err with
      | None => n = length steps /\ Forall (fun r => snd r = None) results
      | Some e =>
          exists out front,
            results = front ++ [(out, Some e)] /\
            Forall (fun r => snd r = None) front
      end.
Proof.
  induction steps as [|step rest IH]; intros acc st outs err st' Hrun.
  - simpl in Hrun. unfold ret in Hrun. inversion Hrun; subst.
    exists 0, []. simpl. unfold ret.
    repeat split; auto. now rewrite app_nil_r.
  - simpl in Hrun. unfold bind at 1 in Hrun.
    destruct (runStep p ctx absPath step st) as [[out serr] st1] eqn:Hstep.
    rewrite keep_nonEmpty in Hrun.
    destruct serr as [e|].
    + unfold ret in Hrun. inversion Hrun; subst.
      exists 1, [(out, Some e)]. simpl.
      unfold bind, ret. rewrite Hstep.
      repeat split; auto with arith.
      exists out, []. split; auto.
    + apply IH in Hrun.
      destruct Hrun as (n & results & Hn & Heach & Houts & Herr).
      exists (S n), ((out, None) :: results). simpl.
      unfold bind at 1. rewrite Hstep.
      unfold bind at 1. rewrite Heach. unfold ret.
      split; [lia|]. split; [reflexivity|]. split.
      * rewrite Houts. rewrite <- app_assoc. f_equal.
        unfold nonEmptyOutputs; simpl. destruct (out =? ""); reflexivity.
      * destruct err as [e|].
        -- destruct Herr as (o & front & Hres & Hfront).
           exists o, ((out, None) :: front). split.
           ++ now rewrite Hres.
           ++ constructor; auto.
        -- destruct Herr as [Hlen Hall]. split; [now rewrite Hlen|].
           constructor; auto.
Qed.

(** The loop does not look at a step whose name has no case: such a step
    in the middle of a sequence changes nothing. *)
Lemma runSteps_loop_skip (front back : list Step) (step : Step) :
  knownStepName (StepName step) = false ->
  forall (acc : list string) (st : State W),
    runSteps_loop p ctx absPath (front ++ step :: back) acc st
    = runSteps_loop p ctx absPath (front ++ back) acc st.
Proof.
  intros Hname.
  unfold knownStepName in Hname.
  repeat (apply orb_false_iff in Hname; destruct Hname as [Hname ?]).
  induction front as [|s rest IH]; intros acc st; simpl.
  - unfold bind at 1, runStep.
    rewrite Hname, H1, H0, H. unfold ret. reflexivity.
  - unfold bind.
    destruct (runStep p ctx absPath s st) as [[out serr] st1].
    destruct serr; auto.
Qed.

(** Steps run one after the other return one result each. *)
Lemma runEach_length (steps : list Step) (st : State W) :
  length (fst (runEach p ctx absPath steps st)) = length steps.
Proof.
  revert st; induction steps as [|step rest IH]; intros st; simpl; auto.
  unfold bind at 1.
  destruct (runStep p ctx absPath step st) as [r st1].
  unfold bind at 1. specialize (IH st1).
  destruct (runEach p ctx absPath rest st1) as [rs st2]; simpl in *.
  now rewrite IH.
Qed.

(** A name outside the four cases, as the boolean test of the model. *)
Lemma unknown_name (name : string) :
  ~ In name ["init"; "plan"; "apply"; "run"] -> knownStepName name = false.
Proof.
  intros Hno. unfold knownStepName.
  repeat (apply orb_false_iff; split);
    apply String.eqb_neq; intros ->; apply Hno; simpl; auto.
Qed.

(** One step of the loop is its executor run on the current world, with
    the call added to the trace. *)
Lemma runEach_executeInOrder (steps : list Step) :
  forall st : State W,
    runEach p ctx absPath steps st = executeInOrder p ctx absPath steps st.
Proof.
  induction steps as [|step rest IH]; intros st; simpl; [reflexivity|].
  unfold bind at 1. unfold runStep, executorOf.
  repeat match goal with
         | |- context [if ?b then _ else _] => destruct b
         end;
    unfold call, ret;
    try match goal with
        | |- context [Run ?r ?c ?a ?q ?w] => destruct (Run r c a q w) as [r0 w0]
        end;
    unfold bind; rewrite IH;
    match goal with
    | |- context [executeInOrder p ctx absPath rest ?X] =>
        destruct (executeInOrder p ctx absPath rest X) as [rs st2]
    end; reflexivity.
Qed.

(** C8, as the code has it: for every step sequence and path, [runSteps]
    executes a prefix of the steps, each by the step runner its name
    selects, in the given order, and nothing else: the state it ends in,
    world and trace, is the one the executors of that prefix leave.  Its
    outputs are the non-empty outputs of that prefix in order, the output of
    the failing step included when it is not empty.  Without an error the
    prefix is the whole sequence and no step failed; with an error the error
    is that of the last step of the prefix, every step before it succeeded,
    and no later step is executed. *)
Theorem runSteps_in_order_until_first_error
    (steps : list Step) (st : State W) :
  exists (n : nat) (results : list (string * option error)),
    n <= length steps /\
    length results = n /\
    executeInOrder p ctx absPath (firstn n steps) st
      = (results, snd (runSteps p steps ctx absPath st)) /\
    trace (snd (runSteps p steps ctx absPath st))
      = trace st ++ flat_map (dispatch absPath) (firstn n steps) /\
    fst (fst (runSteps p steps ctx absPath st))
      = nonEmptyOutputs (map fst results) /\
    match snd (fst (runSteps p steps ctx absPath st)) with
    | None => n = length steps /\ Forall (fun r => snd r = None) results
    | Some e =>
        exists out front,
          results = front ++ [(out, Some e)] /\
          Forall (fun r => snd r = None) front
    end.
Proof.
  unfold runSteps.
  destruct (runSteps_loop p ctx absPath steps [] st) as [[outs err] st'] eqn:Hrun.
  destruct (runSteps_loop_prefix steps [] st outs err st' Hrun)
    as (n & results & Hn & Heach & Houts & Herr).
  exists n, results. simpl.
  split; [exact Hn|]. split.
  - pose proof (runEach_length (firstn n steps) st) as Hlen.
    rewrite Heach in Hlen. simpl in Hlen.
    rewrite Hlen. apply firstn_length_le. exact Hn.
  - split; [now rewrite <- runEach_executeInOrder|]. split.
    + pose proof (runEach_trace (firstn n steps) st) as Htr.
      rewrite Heach in Htr. exact Htr.
    + split; [exact Houts | exact Herr].
Qed.

(** C9: a step whose name is none of init, plan, apply and run is skipped:
    running it calls nothing, gives no output and no error and leaves the
    state as it was, and [runSteps] on a sequence holding it returns what it
    returns on the sequence without it, in the same final state. *)
Theorem runSteps_skips_unknown_step
    (front back : list Step) (step : Step) (st : State W) :
  ~ In (StepName step) ["init"; "plan"; "apply"; "run"] ->
  runStep p ctx absPath step st = (("", None), st) /\
  dispatch absPath step = [] /\
  runSteps p (front ++ step :: back) ctx absPath st
  = runSteps p (front ++ back) ctx absPath st.
Proof.
  intros Hno. apply unknown_name in Hno.
  split; [|split].
  - unfold knownStepName in Hno.
    repeat (apply orb_false_iff in Hno; destruct Hno as [Hno ?]).
    unfold runStep. rewrite Hno, H1, H0, H. reflexivity.
  - unfold knownStepName in Hno.
    repeat (apply orb_false_iff in Hno; destruct Hno as [Hno ?]).
    unfold dispatch. rewrite Hno, H1, H0, H. reflexivity.
  - unfold runSteps. now apply runSteps_loop_skip.
Qed.

End StepPipeline.

(** C9 at a sequence [init; show; plan] of the concrete runner, whose
    second step has a name without a case. *)
Lemma runSteps_skips_unknown_step_witness :
  let p := Demo.okRunner (true, None) false in
  let ctx := Demo.ctxOf 1 "." None in
  let show := {| StepName := "show"; ExtraArgs := []; RunCommand := [] |} in
  let init := {| StepName := "init"; ExtraArgs := []; RunCommand := [] |} in
  let plan := {| StepName := "plan"; ExtraArgs := []; RunCommand := [] |} in
  ~ In (StepName show) ["init"; "plan"; "apply"; "run"] /\
  (runStep p ctx "/data/repo" show (Demo.start Demo.idle)
     = (("", None), Demo.start Demo.idle) /\
   dispatch "/data/repo" show = [] /\
   runSteps p ([init] ++ show :: [plan]) ctx "/data/repo" (Demo.start Demo.idle)
   = runSteps p ([init] ++ [plan]) ctx "/data/repo" (Demo.start Demo.idle)).
Proof.
  intros p ctx show init plan.
  assert (Hno : ~ In (StepName show) ["init"; "plan"; "apply"; "run"]).
  { simpl. intros [H|[H|[H|[H|[]]]]]; discriminate H. }
  split; [exact Hno|].
  exact (runSteps_skips_unknown_step Demo.World p ctx "/data/repo"
           [init] [plan] show (Demo.start Demo.idle) Hno).
Defined.

(** * Plan and Apply *)

Section Orchestration.

Variable W : Type.
Variable NewProject : string -> string -> Project.
Variable filepath_Join : string -> string -> string.
Variable p : DefaultProjectCommandRunner W.
Variable ctx : ProjectCommandContext.

(** Unfold one path of [Plan] or [Apply]. *)
Ltac unfold_runner :=
  unfold Plan, Apply, doPlan, doApply, defer, unlockAfterPlanError,
    bind, call, emit, ret; simpl.

(** C5: when the project locker answers without an error that the lock is
    not acquired, [Plan] returns the attempt's failure reason with no error
    and no success payload, and the only call it has made is that one
    [TryLock]: no working-directory lock, no clone, no step. *)
Theorem Plan_lock_not_acquired
    (st : State W) (lockAttempt : LockAttempt W) (w1 : W) :
  Locker p (Pull ctx) (User_ ctx) (Workspace ctx)
    (NewProject (FullName (BaseRepo ctx)) (RepoRelDir ctx)) (world st)
    = ((lockAttempt, None), w1) ->
  LockAcquired lockAttempt = false ->
  Plan NewProject filepath_Join p ctx st
  = (unsuccessful ctx (LockFailureReason lockAttempt) None,
     {| world := w1;
        trace := trace st ++ [evLockerTryLock NewProject ctx] |}) /\
  existsb is_workdir_trylock [evLockerTryLock NewProject ctx] = false /\
  existsb is_clone [evLockerTryLock NewProject ctx] = false /\
  existsb is_run [evLockerTryLock NewProject ctx] = false.
Proof.
  intros Hlock Hacq. split; [|repeat split].
  unfold_runner. rewrite Hlock. simpl. rewrite Hacq. reflexivity.
Qed.

(** C1, the path that does not release: when the project lock is acquired
    and the working-directory locker then returns an error, [Plan] returns
    that error having called nothing after the two [TryLock]s; the release
    function of the project lock is not among its calls, and the world is
    left as the working-directory locker left it. *)
Theorem Plan_workdir_lock_failure_keeps_project_lock
    (st : State W) (lockAttempt : LockAttempt W) (w1 w2 : W)
    (unlockFn : W -> W) (e : error) :
  Locker p (Pull ctx) (User_ ctx) (Workspace ctx)
    (NewProject (FullName (BaseRepo ctx)) (RepoRelDir ctx)) (world st)
    = ((lockAttempt, None), w1) ->
  LockAcquired lockAttempt = true ->
  WorkingDirLocker p (FullName (BaseRepo ctx)) (Num (Pull ctx))
    (Workspace ctx) w1 = ((unlockFn, Some e), w2) ->
  Plan NewProject filepath_Join p ctx st
  = (unsuccessful ctx "" (Some e),
     {| world := w2;
        trace := trace st ++
                 [evLockerTryLock NewProject ctx;
                  EvLogDebug "acquired lock for project" [];
                  evWorkingDirTryLock ctx] |}) /\
  existsb is_project_unlock
    [evLockerTryLock NewProject ctx;
     EvLogDebug "acquired lock for project" [];
     evWorkingDirTryLock ctx] = false.
Proof.
  intros Hlock Hacq Hwd. split; [|reflexivity].
  unfold_runner. rewrite Hlock. simpl. rewrite Hacq. simpl.
  rewrite Hwd. simpl. rewrite <- !app_assoc. reflexivity.
Qed.

(** The sibling path of a failed clone does release the project lock: the
    release function is the first call after the clone. *)
Lemma Plan_clone_failure_releases
    (st : State W) (lockAttempt : LockAttempt W) (w1 w2 w3 : W)
    (unlockFn : W -> W) (repoDir : string) (ce : error) :
  Locker p (Pull ctx) (User_ ctx) (Workspace ctx)
    (NewProject (FullName (BaseRepo ctx)) (RepoRelDir ctx)) (world st)
    = ((lockAttempt, None), w1) ->
  LockAcquired lockAttempt = true ->
  WorkingDirLocker p (FullName (BaseRepo ctx)) (Num (Pull ctx))
    (Workspace ctx) w1 = ((unlockFn, None), w2) ->
  Clone (WorkingDir p) (BaseRepo ctx) (HeadRepo ctx) (Pull ctx)
    (RebaseRepo ctx) (Workspace ctx) w2 = ((repoDir, Some ce), w3) ->
  fst (Plan NewProject filepath_Join p ctx st) = unsuccessful ctx "" (Some ce) /\
  exists rest,
    trace (snd (Plan NewProject filepath_Join p ctx st))
    = trace st ++ planReached NewProject ctx ++ EvProjectUnlock :: rest.
Proof.
  intros Hlock Hacq Hwd Hclone.
  unfold_runner. rewrite Hlock. simpl. rewrite Hacq. simpl.
  rewrite Hwd. simpl. rewrite Hclone. simpl.
  destruct (UnlockFn lockAttempt w3) as [[ue|] w4]; simpl;
    (split; [reflexivity|]); eexists;
    rewrite <- !app_assoc; simpl; reflexivity.
Qed.

(** The sibling path of a failed step does release the project lock: the
    release function is the first call after the pipeline. *)
Lemma Plan_step_failure_releases
    (st : State W) (lockAttempt : LockAttempt W) (w1 w2 w3 : W)
    (unlockFn : W -> W) (repoDir : string) (stage : Stage)
    (st4 st5 : State W) (outs : list string) (e : error) :
  Locker p (Pull ctx) (User_ ctx) (Workspace ctx)
    (NewProject (FullName (BaseRepo ctx)) (RepoRelDir ctx)) (world st)
    = ((lockAttempt, None), w1) ->
  LockAcquired lockAttempt = true ->
  WorkingDirLocker p (FullName (BaseRepo ctx)) (Num (Pull ctx))
    (Workspace ctx) w1 = ((unlockFn, None), w2) ->
  Clone (WorkingDir p) (BaseRepo ctx) (HeadRepo ctx) (Pull ctx)
    (RebaseRepo ctx) (Workspace ctx) w2 = ((repoDir, None), w3) ->
  planStage p ctx
    {| world := w3; trace := trace st ++ planReached NewProject ctx |}
    = (stage, st4) ->
  runSteps p (Steps stage) ctx (filepath_Join repoDir (RepoRelDir ctx)) st4
    = ((outs, Some e), st5) ->
  fst (Plan NewProject filepath_Join p ctx st)
    = unsuccessful ctx ""
        (Some (fmt.Errorf_s_nl_s e (strings.Join outs nl))) /\
  exists rest,
    trace (snd (Plan NewProject filepath_Join p ctx st))
    = trace st5 ++ EvProjectUnlock :: rest.
Proof.
  intros Hlock Hacq Hwd Hclone Hstage Hrun.
  unfold_runner. rewrite Hlock. simpl. rewrite Hacq. simpl.
  rewrite Hwd. simpl. rewrite Hclone. simpl.
  unfold planReached, evLockerTryLock, evWorkingDirTryLock, evClone in Hstage.
  rewrite <- !app_assoc. simpl.
  rewrite Hstage. rewrite Hrun.
  destruct (UnlockFn lockAttempt (world st5)) as [[ue|] w6]; simpl;
    (split; [reflexivity|]); eexists;
    rewrite <- !app_assoc; simpl; reflexivity.
Qed.

(** C6: when the lookup of the working directory fails, [Apply] returns an
    error having called nothing else (no working-directory lock, no step):
    for a not-exist error it is the error saying that the project has not
    been cloned, which is a different error value and not itself a not-exist
    error; any other error is returned as it is. *)
Theorem Apply_working_dir_lookup_failure
    (st : State W) (repoDir : string) (e : error) (w1 : W) :
  GetWorkingDir (WorkingDir p) (BaseRepo ctx) (Pull ctx) (Workspace ctx)
    (world st) = ((repoDir, Some e), w1) ->
  Apply filepath_Join p ctx st
  = (unsuccessful ctx "" (Some (if os.IsNotExist e then notCloned else e)),
     {| world := w1; trace := trace st ++ [evGetWorkingDir ctx] |}) /\
  (os.IsNotExist e = true ->
   notCloned <> e /\ os.IsNotExist notCloned = false) /\
  existsb is_workdir_trylock [evGetWorkingDir ctx] = false /\
  existsb is_run [evGetWorkingDir ctx] = false.
Proof.
  intros Hget. split; [|split; [|split; reflexivity]].
  - unfold_runner. rewrite Hget. simpl.
    destruct (os.IsNotExist e); reflexivity.
  - intros Hne. split; [|reflexivity].
    intros Heq. rewrite <- Heq in Hne. discriminate Hne.
Qed.

(** The requirement loop on a list holding "approved", for a pull request
    the checker reports as not approved: one call of the checker and an
    early return with the failure reason. *)
Lemma checkRequirements_unmet (reqs : list string) (w1 w2 : W)
    (t : list Event) :
  In ApprovedApplyRequirement reqs ->
  PullApprovedChecker p (BaseRepo ctx) (Pull ctx) w1 = ((false, None), w2) ->
  checkRequirements p ctx reqs {| world := w1; trace := t |}
  = (Some ("", mustBeApproved, None),
     {| world := w2; trace := t ++ [evPullIsApproved ctx] |}).
Proof.
  intros Hin Hcheck.
  induction reqs as [|req rest IH]; [destruct Hin|].
  simpl. destruct (req =? ApprovedApplyRequirement) eqn:Hreq.
  - unfold bind, call, ret. simpl. rewrite Hcheck. reflexivity.
  - destruct Hin as [Heq|Hin]; [|now apply IH].
    rewrite Heq, String.eqb_refl in Hreq. discriminate Hreq.
Qed.

(** The same loop when the checker itself fails: one call and an early
    return with the error, wrapped. *)
Lemma checkRequirements_error (reqs : list string) (w1 w2 : W)
    (t : list Event) (approved : bool) (e : error) :
  In ApprovedApplyRequirement reqs ->
  PullApprovedChecker p (BaseRepo ctx) (Pull ctx) w1
    = ((approved, Some e), w2) ->
  checkRequirements p ctx reqs {| world := w1; trace := t |}
  = (Some ("", "",
       Some (errors.Wrap e "checking if pull request was approved")),
     {| world := w2; trace := t ++ [evPullIsApproved ctx] |}).
Proof.
  intros Hin Hcheck.
  induction reqs as [|req rest IH]; [destruct Hin|].
  simpl. destruct (req =? ApprovedApplyRequirement) eqn:Hreq.
  - unfold bind, call, ret. simpl. rewrite Hcheck. reflexivity.
  - destruct Hin as [Heq|Hin]; [|now apply IH].
    rewrite Heq, String.eqb_refl in Hreq. discriminate Hreq.
Qed.

(** C7: with the server-wide override the requirements [doApply] evaluates
    are the single "approved" one, whatever the project configures.  When
    the working directory is found and the requirements hold "approved":
    if the checker reports the pull request as not approved, [Apply] returns
    the failure reason and no error, and if the checker fails, [Apply]
    returns that error (wrapped) and no failure reason; either way the
    lookup and the check are the only calls made, so that no step has run
    and the working-directory lock was never requested. *)
Theorem Apply_approval_gate :
  (RequireApprovalOverride p = true ->
   applyRequirements p ctx = [ApprovedApplyRequirement]) /\
  (forall (st : State W) (repoDir : string) (w1 w2 : W),
     GetWorkingDir (WorkingDir p) (BaseRepo ctx) (Pull ctx) (Workspace ctx)
       (world st) = ((repoDir, None), w1) ->
     In ApprovedApplyRequirement (applyRequirements p ctx) ->
     PullApprovedChecker p (BaseRepo ctx) (Pull ctx) w1
       = ((false, None), w2) ->
     Apply filepath_Join p ctx st
     = (unsuccessful ctx mustBeApproved None,
        {| world := w2;
           trace := trace st ++ [evGetWorkingDir ctx; evPullIsApproved ctx] |})) /\
  (forall (st : State W) (repoDir : string) (w1 w2 : W) (approved : bool)
          (e : error),
     GetWorkingDir (WorkingDir p) (BaseRepo ctx) (Pull ctx) (Workspace ctx)
       (world st) = ((repoDir, None), w1) ->
     In ApprovedApplyRequirement (applyRequirements p ctx) ->
     PullApprovedChecker p (BaseRepo ctx) (Pull ctx) w1
       = ((approved, Some e), w2) ->
     Apply filepath_Join p ctx st
     = (unsuccessful ctx ""
          (Some (errors.Wrap e "checking if pull request was approved")),
        {| world := w2;
           trace := trace st ++ [evGetWorkingDir ctx; evPullIsApproved ctx] |})) /\
  existsb is_workdir_trylock [evGetWorkingDir ctx; evPullIsApproved ctx] = false /\
  existsb is_run [evGetWorkingDir ctx; evPullIsApproved ctx] = false.
Proof.
  split; [|split; [|split; [|split; reflexivity]]].
  - intros Hover. unfold applyRequirements. now rewrite Hover.
  - intros st repoDir w1 w2 Hget Hin Hcheck.
    unfold Apply, doApply. unfold bind at 1 2. unfold call at 1.
    rewrite Hget. unfold bind at 1.
    rewrite (checkRequirements_unmet _ w1 w2 _ Hin Hcheck).
    unfold ret. rewrite <- app_assoc. reflexivity.
  - intros st repoDir w1 w2 approved e Hget Hin Hcheck.
    unfold Apply, doApply. unfold bind at 1 2. unfold call at 1.
    rewrite Hget. unfold bind at 1.
    rewrite (checkRequirements_error _ w1 w2 _ approved e Hin Hcheck).
    unfold ret. rewrite <- app_assoc. reflexivity.
Qed.

(** The message of the error built on a step failure: the step's message,
    a newline, the joined outputs; so the step's message comes first. *)
Lemma Errorf_message (e : error) (outs : list string) :
  Error_ (fmt.Errorf_s_nl_s e (strings.Join outs nl))
    = (Error_ e ++ nl ++ strings.Join outs nl)%string /\
  precedes_in (Error_ e) (strings.Join outs nl)
    (Error_ (fmt.Errorf_s_nl_s e (strings.Join outs nl))).
Proof.
  split; [reflexivity|].
  exists "", nl, "". simpl.
  induction (Error_ e) as [|c m IH]; simpl.
  - induction (strings.Join outs nl) as [|c m IH]; simpl; [reflexivity|].
    f_equal. injection IH as IH. now f_equal.
  - now f_equal.
Qed.

(** C2, as the code has it: when the step pipeline of [Plan] or of [Apply]
    fails with an error after accumulating outputs, the result carries an
    error whose message is the step's message, a newline, and the outputs
    joined by newlines: it holds both, the failure message first and the
    outputs after it. *)
Theorem step_failure_error_message :
  (forall (st : State W) (lockAttempt : LockAttempt W) (w1 w2 w3 : W)
          (unlockFn : W -> W) (repoDir : string) (stage : Stage)
          (st4 st5 : State W) (outs : list string) (e : error),
     Locker p (Pull ctx) (User_ ctx) (Workspace ctx)
       (NewProject (FullName (BaseRepo ctx)) (RepoRelDir ctx)) (world st)
       = ((lockAttempt, None), w1) ->
     LockAcquired lockAttempt = true ->
     WorkingDirLocker p (FullName (BaseRepo ctx)) (Num (Pull ctx))
       (Workspace ctx) w1 = ((unlockFn, None), w2) ->
     Clone (WorkingDir p) (BaseRepo ctx) (HeadRepo ctx) (Pull ctx)
       (RebaseRepo ctx) (Workspace ctx) w2 = ((repoDir, None), w3) ->
     planStage p ctx
       {| world := w3; trace := trace st ++ planReached NewProject ctx |}
       = (stage, st4) ->
     runSteps p (Steps stage) ctx (filepath_Join repoDir (RepoRelDir ctx)) st4
       = ((outs, Some e), st5) ->
     exists err,
       fst (Plan NewProject filepath_Join p ctx st)
         = unsuccessful ctx "" (Some err) /\
       Error_ err = (Error_ e ++ nl ++ strings.Join outs nl)%string /\
       precedes_in (Error_ e) (strings.Join outs nl) (Error_ err)) /\
  (forall (st : State W) (repoDir : string) (w1 w3 : W) (st2 st4 : State W)
          (unlockFn : W -> W) (outs : list string) (e : error),
     GetWorkingDir (WorkingDir p) (BaseRepo ctx) (Pull ctx) (Workspace ctx)
       (world st) = ((repoDir, None), w1) ->
     checkRequirements p ctx (applyRequirements p ctx)
       {| world := w1; trace := trace st ++ [evGetWorkingDir ctx] |}
       = (None, st2) ->
     WorkingDirLocker p (FullName (BaseRepo ctx)) (Num (Pull ctx))
       (Workspace ctx) (world st2) = ((unlockFn, None), w3) ->
     runSteps p (Steps (applyStage p ctx)) ctx
       (filepath_Join repoDir (RepoRelDir ctx))
       {| world := w3; trace := trace st2 ++ [evWorkingDirTryLock ctx] |}
       = ((outs, Some e), st4) ->
     exists err,
       fst (Apply filepath_Join p ctx st)
         = unsuccessful ctx "" (Some err) /\
       Error_ err = (Error_ e ++ nl ++ strings.Join outs nl)%string /\
       precedes_in (Error_ e) (strings.Join outs nl) (Error_ err)).
Proof.
  split.
  - intros st lockAttempt w1 w2 w3 unlockFn repoDir stage st4 st5 outs e
      Hlock Hacq Hwd Hclone Hstage Hrun.
    exists (fmt.Errorf_s_nl_s e (strings.Join outs nl)).
    split; [|apply Errorf_message].
    now apply (Plan_step_failure_releases st lockAttempt w1 w2 w3 unlockFn
                 repoDir stage st4 st5 outs e).
  - intros st repoDir w1 w3 st2 st4 unlockFn outs e Hget Hreq Hwd Hrun.
    exists (fmt.Errorf_s_nl_s e (strings.Join outs nl)).
    split; [|apply Errorf_message].
    unfold Apply, doApply. unfold bind at 1 2. unfold call at 1.
    rewrite Hget. unfold bind at 1.
    unfold evGetWorkingDir in Hreq. rewrite Hreq.
    unfold bind at 1. unfold call at 1. rewrite Hwd.
    unfold defer. unfold bind at 1 2.
    unfold evWorkingDirTryLock in Hrun. rewrite Hrun.
    unfold bind, call, ret.
    destruct (Webhooks p _ (world st4)) as [werr w5].
    reflexivity.
Qed.

(** An early return out of the requirement loop carries a failure reason or
    an error, never both and never an output. *)
Lemma checkRequirements_early (reqs : list string) :
  forall (st st' : State W) (r : string * string * option error),
    checkRequirements p ctx reqs st = (Some r, st') ->
    (exists e, r = ("", "", Some e)) \/ r = ("", mustBeApproved, None).
Proof.
  induction reqs as [|req rest IH]; intros st st' r Hret; simpl in Hret.
  - unfold ret in Hret. discriminate Hret.
  - destruct (req =? ApprovedApplyRequirement); [|now apply IH in Hret].
    unfold bind, call in Hret. simpl in Hret.
    destruct (PullApprovedChecker p (BaseRepo ctx) (Pull ctx) (world st))
      as [[approved [e|]] w1]; simpl in Hret.
    + unfold ret in Hret. inversion Hret; subst. left. eauto.
    + destruct approved; simpl in Hret.
      * now apply IH in Hret.
      * unfold ret in Hret. inversion Hret; subst. now right.
Qed.

(** The exits of [doPlan]: the lock is reported as not acquired and the
    attempt's reason is returned alone; or an error is returned alone; or
    the plan is returned alone. *)
Lemma doPlan_exits (st : State W) :
  let '(planSuccess, failure, err) :=
    fst (doPlan NewProject filepath_Join p ctx st) in
  (planSuccess = None /\ err = None /\
   exists lockAttempt w1,
     Locker p (Pull ctx) (User_ ctx) (Workspace ctx)
       (NewProject (FullName (BaseRepo ctx)) (RepoRelDir ctx)) (world st)
       = ((lockAttempt, None), w1) /\
     LockAcquired lockAttempt = false /\
     failure = LockFailureReason lockAttempt) \/
  (planSuccess = None /\ failure = "" /\ err <> None) \/
  (planSuccess <> None /\ failure = "" /\ err = None).
Proof.
  unfold doPlan, defer, unlockAfterPlanError, bind, call, emit, ret. simpl.
  destruct (Locker p _ _ _ _ (world st)) as [[la [e|]] w1] eqn:Hlock; simpl.
  { right; left. repeat split; discriminate. }
  destruct (LockAcquired la) eqn:Hacq; simpl.
  2:{ left. repeat split. exists la, w1. auto. }
  destruct (WorkingDirLocker p _ _ _ w1) as [[unlockFn [e|]] w2]; simpl.
  { right; left. repeat split; discriminate. }
  destruct (Clone (WorkingDir p) _ _ _ _ _ w2) as [[repoDir [ce|]] w3]; simpl.
  { destruct (UnlockFn la w3) as [[ue|] w4]; simpl;
      right; left; repeat split; discriminate. }
  destruct (planStage p ctx _) as [stage st4].
  destruct (runSteps p (Steps stage) ctx _ st4) as [[outs [e|]] st5]; simpl.
  { destruct (UnlockFn la (world st5)) as [[ue|] w6]; simpl;
      right; left; repeat split; discriminate. }
  destruct (LockURLGenerator p (LockKey la) (world st5)) as [url w6]; simpl.
  right; right. repeat split; discriminate.
Qed.

(** The exits of [doApply]: the failure reason of the approval gate alone;
    or an error alone; or the joined output alone, and then the last two
    calls are the webhook, sent with the success flag set, and the release
    of the working-directory lock. *)
Lemma doApply_exits (st : State W) :
  let '((applyOut, failure, err), st') := doApply filepath_Join p ctx st in
  (applyOut = "" /\ failure = mustBeApproved /\ err = None) \/
  (applyOut = "" /\ failure = "" /\ err <> None) \/
  (failure = "" /\ err = None /\
   exists before res,
     trace st' = before ++ [EvWebhooksSend res; EvWorkingDirUnlock] /\
     ar_Success res = true).
Proof.
  unfold doApply. unfold bind at 1. unfold call at 1.
  destruct (GetWorkingDir (WorkingDir p) _ _ _ (world st))
    as [[repoDir [e|]] w1]; simpl.
  { unfold ret. destruct (os.IsNotExist e);
      right; left; repeat split; discriminate. }
  unfold bind at 1.
  destruct (checkRequirements p ctx (applyRequirements p ctx) _)
    as [[r|] st2] eqn:Hreq.
  { apply checkRequirements_early in Hreq. unfold ret.
    destruct Hreq as [[e ->] | ->].
    - right; left. repeat split; discriminate.
    - left. repeat split. }
  unfold bind at 1. unfold call at 1.
  destruct (WorkingDirLocker p _ _ _ (world st2)) as [[unlockFn [e|]] w3].
  { unfold ret. right; left. repeat split; discriminate. }
  unfold defer. unfold bind at 1 2.
  destruct (runSteps p _ ctx _ _) as [[outs [e|]] st4];
    unfold bind, call, ret; simpl;
    destruct (Webhooks p _ (world st4)) as [werr w5]; simpl.
  - right; left. repeat split; discriminate.
  - right; right. repeat split.
    eexists; eexists. split.
    + rewrite <- app_assoc. simpl. reflexivity.
    + reflexivity.
Qed.

(** C3, as the code has it: a result of [Plan] or of [Apply] has at most
    one of plan-success, apply-success, failure reason and error populated.
    It has none only on two exits: [Plan] when the project lock is reported
    as not acquired with an empty reason, and [Apply] when the step pipeline
    succeeds (the webhook was sent with the success flag) and the joined
    output is empty. *)
Theorem ProjectResult_at_most_one_populated (st : State W) :
  populated (fst (Plan NewProject filepath_Join p ctx st)) <= 1 /\
  populated (fst (Apply filepath_Join p ctx st)) <= 1 /\
  (populated (fst (Plan NewProject filepath_Join p ctx st)) = 0 ->
   exists lockAttempt w1,
     Locker p (Pull ctx) (User_ ctx) (Workspace ctx)
       (NewProject (FullName (BaseRepo ctx)) (RepoRelDir ctx)) (world st)
       = ((lockAttempt, None), w1) /\
     LockAcquired lockAttempt = false /\
     LockFailureReason lockAttempt = "") /\
  (populated (fst (Apply filepath_Join p ctx st)) = 0 ->
   exists before res,
     trace (snd (Apply filepath_Join p ctx st))
       = before ++ [EvWebhooksSend res; EvWorkingDirUnlock] /\
     ar_Success res = true).
Proof.
  pose proof (doPlan_exits st) as HP.
  pose proof (doApply_exits st) as HA.
  unfold Plan, Apply. unfold bind, ret.
  destruct (doPlan NewProject filepath_Join p ctx st)
    as [[[planSuccess pf] perr] pst]. simpl in HP.
  destruct (doApply filepath_Join p ctx st) as [[[applyOut af] aerr] ast].
  unfold populated; simpl.
  assert (HPcases :
    (match planSuccess with Some _ => 1 | None => 0 end)
    + 0 + (if pf =? "" then 0 else 1)
    + (match perr with Some _ => 1 | None => 0 end) <= 1).
  { destruct HP as [(-> & -> & _) | [(-> & -> & Hne) | (Hne & -> & ->)]];
      simpl.
    - destruct (pf =? ""); lia.
    - destruct perr; [lia | congruence].
    - destruct planSuccess; [lia | congruence]. }
  assert (HAcases :
    0 + (if applyOut =? "" then 0 else 1) + (if af =? "" then 0 else 1)
    + (match aerr with Some _ => 1 | None => 0 end) <= 1).
  { destruct HA as [(-> & -> & ->) | [(-> & -> & Hne) | (-> & -> & _)]];
      simpl.
    - lia.
    - destruct aerr; [lia | congruence].
    - destruct (applyOut =? ""); lia. }
  split; [exact HPcases|]. split; [exact HAcases|]. split.
  - intros Hzero.
    destruct HP as [(-> & -> & la & w1 & Hlock & Hacq & Hreason)
                   | [(-> & -> & Hne) | (Hne & -> & ->)]]; simpl in Hzero.
    + exists la, w1. repeat split; auto.
      destruct (pf =? "") eqn:Hpf; [|discriminate Hzero].
      apply String.eqb_eq in Hpf. congruence.
    + destruct perr; [discriminate Hzero | congruence].
    + destruct planSuccess; [discriminate Hzero | congruence].
  - intros Hzero.
    destruct HA as [(-> & -> & ->) | [(-> & -> & Hne) | (-> & -> & Hsent)]];
      simpl in Hzero.
    + discriminate Hzero.
    + destruct aerr; [discriminate Hzero | congruence].
    + exact Hsent.
Qed.

End Orchestration.

(** * The theorems at the concrete runner *)

(** C5 at the concrete runner: pull request 1 holds the project lock and
    pull request 2 plans the same project. *)
Lemma Plan_lock_not_acquired_witness :
  let p := Demo.okRunner (true, None) false in
  let ctx := Demo.ctxOf 2 "." None in
  let st := Demo.start Demo.afterPlan in
  let attempt := fst (fst (Demo.locker (Pull ctx) (User_ ctx) (Workspace ctx)
                             (Demo.NewProject "owner/repo" ".") Demo.afterPlan)) in
  LockAcquired attempt = false /\
  Demo.plan p ctx st
  = (unsuccessful ctx (LockFailureReason attempt) None,
     {| world := Demo.afterPlan;
        trace := trace st ++ [evLockerTryLock Demo.NewProject ctx] |}).
Proof.
  intros p ctx st attempt.
  split; [reflexivity|].
  exact (proj1 (Plan_lock_not_acquired Demo.World Demo.NewProject
                  Demo.filepath_Join p ctx st attempt Demo.afterPlan
                  eq_refl eq_refl)).
Defined.

(** C1 at the concrete runner: the project lock is free, and another
    command of pull request 1 holds the working-directory lock. *)
Lemma Plan_workdir_lock_failure_keeps_project_lock_witness :
  let p := Demo.okRunner (true, None) false in
  let ctx := Demo.ctxOf 1 "." None in
  let st := Demo.start Demo.busyDir in
  let held := {| Demo.holder := Some 1%Z; Demo.wdLocked := true;
                 Demo.cloned := true |} in
  let e := errors.New "the workspace is currently locked by another command" in
  Demo.plan p ctx st
  = (unsuccessful ctx "" (Some e),
     {| world := held;
        trace := trace st ++
                 [evLockerTryLock Demo.NewProject ctx;
                  EvLogDebug "acquired lock for project" [];
                  evWorkingDirTryLock ctx] |}) /\
  existsb is_project_unlock
    [evLockerTryLock Demo.NewProject ctx;
     EvLogDebug "acquired lock for project" [];
     evWorkingDirTryLock ctx] = false.
Proof.
  intros p ctx st held e.
  exact (Plan_workdir_lock_failure_keeps_project_lock Demo.World
           Demo.NewProject Demo.filepath_Join p ctx st
           (fst (fst (Demo.locker (Pull ctx) (User_ ctx) (Workspace ctx)
                        (Demo.NewProject "owner/repo" ".") Demo.busyDir)))
           held held (fun w => w) e eq_refl eq_refl eq_refl).
Defined.

(** What the kept lock does at the concrete runner: after the plan of pull
    request 1 has failed on the working-directory lock, the project lock is
    still held by pull request 1, and a plan of the same project by pull
    request 2 is refused the lock. *)
Lemma leaked_project_lock_blocks_next_pull :
  let p := Demo.okRunner (true, None) false in
  let after := snd (Demo.plan p (Demo.ctxOf 1 "." None)
                      (Demo.start Demo.busyDir)) in
  Demo.holder (world after) = Some 1%Z /\
  existsb is_project_unlock (trace after) = false /\
  fst (Demo.plan p (Demo.ctxOf 2 "." None) (Demo.start (world after)))
  = unsuccessful (Demo.ctxOf 2 "." None)
      "This project is currently locked by another pull request." None.
Proof.
  vm_compute. repeat split.
Qed.

(** C6 at the concrete runner: apply before any plan has cloned the
    repository. *)
Lemma Apply_working_dir_lookup_failure_witness :
  let p := Demo.okRunner (true, None) false in
  let ctx := Demo.ctxOf 1 "." None in
  let st := Demo.start Demo.idle in
  let e := {| Error_ := "no such file or directory"; notExist := true |} in
  os.IsNotExist e = true /\
  Demo.apply p ctx st
  = (unsuccessful ctx "" (Some notCloned),
     {| world := Demo.idle; trace := [evGetWorkingDir ctx] |}).
Proof.
  intros p ctx st e.
  split; [reflexivity|].
  exact (proj1 (Apply_working_dir_lookup_failure Demo.World
                  Demo.filepath_Join p ctx st "" e Demo.idle eq_refl)).
Defined.

(** C7 at the concrete runner: the override is set, the project configures
    no requirement, and the pull request is not approved. *)
Lemma Apply_approval_gate_witness :
  let p := Demo.okRunner (false, None) true in
  let ctx := Demo.ctxOf 1 "." None in
  let st := Demo.start Demo.afterPlan in
  applyRequirements p ctx = [ApprovedApplyRequirement] /\
  Demo.apply p ctx st
  = (unsuccessful ctx mustBeApproved None,
     {| world := Demo.afterPlan;
        trace := [evGetWorkingDir ctx; evPullIsApproved ctx] |}).
Proof.
  intros p ctx st.
  pose (gate := Apply_approval_gate Demo.World Demo.filepath_Join p ctx).
  split.
  - exact (proj1 gate eq_refl).
  - exact (proj1 (proj2 gate) st "/data/repo" Demo.afterPlan Demo.afterPlan
             eq_refl (or_introl eq_refl) eq_refl).
Defined.

(** The runner of the example of the step pipeline: init succeeds with
    output A and plan fails with error E. *)
Lemma step_failure_error_message_witness :
  let p := Demo.runner ("A", None) ("", Some (errors.New "E"))
             ("", None) ("", None) (true, None) false in
  let ctx := Demo.ctxOf 1 "." None in
  exists err,
    fst (Demo.plan p ctx (Demo.start Demo.idle))
      = unsuccessful ctx "" (Some err) /\
    Error_ err = ("E" ++ nl ++ "A")%string /\
    precedes_in "E" "A" (Error_ err).
Proof.
  intros p ctx.
  exact (proj1 (step_failure_error_message Demo.World Demo.NewProject
                  Demo.filepath_Join p ctx)
           (Demo.start Demo.idle)
           (fst (fst (Demo.locker (Pull ctx) (User_ ctx) (Workspace ctx)
                        (Demo.NewProject "owner/repo" ".") Demo.idle)))
           {| Demo.holder := Some 1%Z; Demo.wdLocked := false;
              Demo.cloned := false |}
           {| Demo.holder := Some 1%Z; Demo.wdLocked := true;
              Demo.cloned := false |}
           {| Demo.holder := Some 1%Z; Demo.wdLocked := true;
              Demo.cloned := true |}
           (fun w' => {| Demo.holder := Demo.holder w';
                         Demo.wdLocked := false;
                         Demo.cloned := Demo.cloned w' |})
           "/data/repo"
           (defaultPlanStage p)
           _ _ ["A"] (errors.New "E")
           eq_refl eq_refl eq_refl eq_refl eq_refl eq_refl).
Defined.

(** C2 as it is worded fails on the example of the step pipeline: with init
    succeeding with output A and plan failing with error E, the message of
    the error [Plan] returns is E, a newline, A; the output A does not come
    before the failure message E in it. *)
Lemma output_does_not_precede_error :
  let p := Demo.runner ("A", None) ("", Some (errors.New "E"))
             ("", None) ("", None) (true, None) false in
  let r := fst (Demo.plan p (Demo.ctxOf 1 "." None) (Demo.start Demo.idle)) in
  Error r = Some {| Error_ := "E" ++ nl ++ "A"; notExist := false |} /\
  ~ (exists err, Error r = Some err /\ precedes_in "A" "E" (Error_ err)).
Proof.
  split; [reflexivity|].
  intros (err & Herr & pre & mid & post & Hmsg).
  vm_compute in Herr. injection Herr as <-.
  cbn in Hmsg.
  destruct pre as [|c1 pre]; cbn in Hmsg; [discriminate Hmsg|].
  injection Hmsg as _ Hmsg.
  destruct pre as [|c2 pre]; cbn in Hmsg; [discriminate Hmsg|].
  injection Hmsg as _ Hmsg.
  destruct pre as [|c3 pre]; cbn in Hmsg.
  - injection Hmsg as Hmsg.
    destruct mid; cbn in Hmsg; discriminate Hmsg.
  - injection Hmsg as _ Hmsg.
    destruct pre; cbn in Hmsg; discriminate Hmsg.
Qed.

(** C3 as it is worded fails when the apply step succeeds without output:
    [Apply] returns a result in which none of plan-success, apply-success,
    failure reason and error is populated. *)
Lemma apply_result_with_nothing_populated :
  let p := Demo.runner ("", None) ("", None) ("", None) ("", None)
             (true, None) false in
  let r := fst (Demo.apply p (Demo.ctxOf 1 "." None)
                  (Demo.start Demo.afterPlan)) in
  PlanSuccess r = None /\ ApplySuccess r = "" /\ Failure r = "" /\
  Error r = None /\ populated r = 0 /\ populated r <> 1.
Proof.
  vm_compute. repeat split. discriminate.
Qed.

(** C8 as it is worded fails when the failing step has an output of its
    own: with init succeeding with output A and plan failing with error E
    and output B, [runSteps] returns the error with the outputs A and B,
    which are not the outputs accumulated before the failure, A alone. *)
Lemma failing_step_output_is_returned :
  let p := Demo.runner ("A", None) ("B", Some (errors.New "E"))
             ("", None) ("", None) (true, None) false in
  let ctx := Demo.ctxOf 1 "." None in
  let init := {| StepName := "init"; ExtraArgs := []; RunCommand := [] |} in
  let plan := {| StepName := "plan"; ExtraArgs := []; RunCommand := [] |} in
  let st := Demo.start Demo.idle in
  fst (runSteps p [init; plan] ctx "/data/repo" st)
    = (["A"; "B"], Some (errors.New "E")) /\
  fst (runSteps p [init] ctx "/data/repo" st) = (["A"], None) /\
  fst (fst (runSteps p [init; plan] ctx "/data/repo" st))
    <> fst (fst (runSteps p [init] ctx "/data/repo" st)).
Proof.
  vm_compute. repeat split. discriminate.
Qed.

(** * The approval check of the GitHub client *)

(** [PullIsApproved] returns the mergeability flag of the response and
    looks at nothing else. *)
Lemma PullIsApproved_is_Mergeable (g : vcs.GithubClient) (repo : Repo)
    (pull : PullRequest) (r : vcs.github_PullRequest) (m : bool) :
  vcs.GetPullRequest g repo (Num pull) = (Some r, None) ->
  vcs.Mergeable r = Some m ->
  vcs.PullIsApproved g repo pull = vcs.Returned (m, None).
Proof.
  intros Hget Hm. unfold vcs.PullIsApproved. now rewrite Hget, Hm.
Qed.

(** C4, where the code departs from it: for a pull request that a review
    has approved and that GitHub reports as not mergeable, [PullIsApproved]
    returns false; for one without any approving review that GitHub reports
    as mergeable, it returns true. *)
Theorem PullIsApproved_is_not_the_approval_status :
  let pull := {| Num := 7; HeadCommit := "abc123" |} in
  let approvedWithConflicts := vcs.clientOf (Some false) ["APPROVED"] in
  let unreviewedMergeable := vcs.clientOf (Some true) ["COMMENTED"] in
  vcs.approvedByReview approvedWithConflicts Demo.repo pull = true /\
  vcs.PullIsApproved approvedWithConflicts Demo.repo pull
    = vcs.Returned (false, None) /\
  vcs.approvedByReview unreviewedMergeable Demo.repo pull = false /\
  vcs.PullIsApproved unreviewedMergeable Demo.repo pull
    = vcs.Returned (true, None).
Proof.
  repeat split.
Qed.

(** C10, where the code departs from it: when [GetPullRequest] succeeds
    with a pull request whose mergeability GitHub has left unset,
    [PullIsApproved] panics on the dereference. *)
Theorem PullIsApproved_panics_on_nil_Mergeable (g : vcs.GithubClient)
    (repo : Repo) (pull : PullRequest) (r : vcs.github_PullRequest) :
  vcs.GetPullRequest g repo (Num pull) = (Some r, None) ->
  vcs.Mergeable r = None ->
  vcs.PullIsApproved g repo pull = vcs.Panicked.
Proof.
  intros Hget Hm. unfold vcs.PullIsApproved. now rewrite Hget, Hm.
Qed.

(** C10 at a client whose GitHub has not yet computed the mergeability of
    pull request 7. *)
Lemma PullIsApproved_panics_on_nil_Mergeable_witness :
  let pull := {| Num := 7; HeadCommit := "abc123" |} in
  let g := vcs.clientOf None ["APPROVED"] in
  vcs.GetPullRequest g Demo.repo (Num pull)
    = (Some {| vcs.Number := Some 7%Z; vcs.Mergeable := None |}, None) /\
  vcs.PullIsApproved g Demo.repo pull = vcs.Panicked.
Proof.
  intros pull g.
  split; [reflexivity|].
  exact (PullIsApproved_panics_on_nil_Mergeable g Demo.repo pull
           {| vcs.Number := Some 7%Z; vcs.Mergeable := None |}
           eq_refl eq_refl).
Defined.

(** * Counting calls *)

Lemma count_app (f : Event -> bool) (a b : list Event) :
  count f (a ++ b) = count f a + count f b.
Proof.
  unfold count. now rewrite filter_app, length_app.
Qed.

(** Events of one kind count for nothing of a kind disjoint from it. *)
Lemma count_disjoint (f g : Event -> bool) (l : list Event) :
  forallb g l = true ->
  (forall e, g e = true -> f e = false) ->
  count f l = 0.
Proof.
  intros Hall Hdis. unfold count.
  induction l as [|e l IH]; simpl in *; auto.
  apply andb_true_iff in Hall. destruct Hall as [He Hl].
  rewrite (Hdis e He). auto.
Qed.

Lemma count_le_length (f : Event -> bool) (l : list Event) :
  count f l <= length l.
Proof.
  unfold count. apply filter_length_le.
Qed.

(** The count of [f] in a list of events all of another kind [g]. *)
Ltac count_zero f g l Hall :=
  let H := fresh "Hzero" in
  assert (H : count f l = 0)
    by (apply (count_disjoint f g l Hall);
        let e := fresh "e" in let He := fresh "He" in
        intros e He; destruct e; simpl in *; congruence);
  rewrite ?H.

(** Bring the counts of a trace of [Plan] down to numbers. *)
Ltac count_plan f logs runs Hl Hr :=
  rewrite ?count_app;
  try count_zero f is_log logs Hl;
  try count_zero f is_run runs Hr;
  repeat match goal with
         | |- context [unlockLog ?ue] => is_var ue; destruct ue
         end;
  unfold count; simpl; try lia.

Section Footprints.

Variable W : Type.
Variable p : DefaultProjectCommandRunner W.
Variable ctx : ProjectCommandContext.

(** What a step is dispatched to is a step runner's [Run]. *)
Lemma dispatch_runs (absPath : string) (steps : list Step) :
  forallb is_run (flat_map (dispatch absPath) steps) = true.
Proof.
  induction steps as [|step rest IH]; simpl; auto.
  rewrite forallb_app, IH, andb_true_r.
  unfold dispatch.
  repeat match goal with
         | |- context [if ?b then _ else _] => destruct b
         end; reflexivity.
Qed.

(** The pipeline adds calls of step runners to the trace and nothing else,
    at most one for each step. *)
Lemma runSteps_runs (steps : list Step) (absPath : string) (st : State W) :
  exists runs,
    trace (snd (runSteps p steps ctx absPath st)) = trace st ++ runs /\
    forallb is_run runs = true /\
    length runs <= length steps.
Proof.
  unfold runSteps.
  destruct (runSteps_loop p ctx absPath steps [] st) as [[outs err] st'] eqn:Hrun.
  destruct (runSteps_loop_prefix W p ctx absPath steps [] st outs err st' Hrun)
    as (n & results & Hn & Heach & _).
  pose proof (runEach_trace W p ctx absPath (firstn n steps) st) as Htr.
  rewrite Heach in Htr. simpl in *.
  exists (flat_map (dispatch absPath) (firstn n steps)).
  split; [exact Htr|]. split; [apply dispatch_runs|].
  clear - Hn. revert n Hn.
  induction steps as [|step rest IH]; intros n Hn.
  - rewrite firstn_nil. simpl. lia.
  - destruct n as [|n]; simpl; [lia|].
    rewrite length_app. simpl in Hn.
    specialize (IH n ltac:(lia)).
    assert (length (dispatch absPath step) <= 1).
    { unfold dispatch.
      repeat match goal with
             | |- context [if ?b then _ else _] => destruct b
             end; simpl; lia. }
    lia.
Qed.

(** The choice of the plan stage writes to the log and does nothing else. *)
Lemma planStage_logs (st : State W) :
  exists logs,
    snd (planStage p ctx st)
      = {| world := world st; trace := trace st ++ logs |} /\
    forallb is_log logs = true.
Proof.
  unfold planStage.
  destruct (ProjectConfig ctx) as [cfg|].
  2:{ exists []. destruct st; simpl. now rewrite app_nil_r. }
  destruct (Workflow cfg) as [wf|].
  2:{ exists []. destruct st; simpl. now rewrite app_nil_r. }
  unfold bind, emit, ret. simpl.
  destruct (GetPlanStage (GlobalConfig ctx) wf) as [configured|]; simpl.
  - eexists. rewrite <- app_assoc. simpl. split; reflexivity.
  - eexists. split; reflexivity.
Qed.

(** The requirement loop calls the approval checker and nothing else, at
    most once for each "approved" among the requirements. *)
Lemma checkRequirements_calls (reqs : list string) :
  forall (st : State W),
  exists calls,
    trace (snd (checkRequirements p ctx reqs st)) = trace st ++ calls /\
    forallb is_pull_is_approved calls = true /\
    length calls <= count_occ string_dec reqs ApprovedApplyRequirement.
Proof.
  induction reqs as [|req rest IH]; intros st; simpl.
  - exists []. unfold ret. simpl. rewrite app_nil_r. auto.
  - destruct (req =? ApprovedApplyRequirement) eqn:Hreq.
    + apply String.eqb_eq in Hreq. subst req.
      destruct (string_dec ApprovedApplyRequirement ApprovedApplyRequirement)
        as [_|Hne]; [|now destruct Hne].
      unfold bind, call. simpl.
      destruct (PullApprovedChecker p (BaseRepo ctx) (Pull ctx) (world st))
        as [[approved [e|]] w1]; simpl.
      * unfold ret. simpl. eexists. split; [reflexivity|]. simpl.
        split; [reflexivity | lia].
      * destruct approved; simpl.
        -- destruct (IH {| world := w1;
                           trace := trace st ++
                                    [EvPullIsApproved (BaseRepo ctx) (Pull ctx)] |})
             as (calls & Htr & Hall & Hlen).
           exists (EvPullIsApproved (BaseRepo ctx) (Pull ctx) :: calls).
           rewrite Htr. simpl. rewrite <- app_assoc. simpl.
           split; [reflexivity|]. split; [exact Hall | lia].
        -- unfold ret. simpl. eexists. split; [reflexivity|]. simpl.
           split; [reflexivity | lia].
    + apply String.eqb_neq in Hreq.
      destruct (string_dec req ApprovedApplyRequirement) as [Heq|_];
        [now destruct Hreq|].
      apply IH.
Qed.

End Footprints.

(** Events of one kind hold none of a kind disjoint from it. *)
Lemma existsb_disjoint (f g : Event -> bool) (l : list Event) :
  forallb g l = true ->
  (forall e, g e = true -> f e = false) ->
  existsb f l = false.
Proof.
  intros Hall Hdis.
  induction l as [|e l IH]; simpl in *; auto.
  apply andb_true_iff in Hall. destruct Hall as [He Hl].
  rewrite (Hdis e He). auto.
Qed.

(** No event of kind [f] in a list of events all of another kind [g]. *)
Ltac none_of f g l Hall :=
  let H := fresh "Hnone" in
  assert (H : existsb f l = false)
    by (apply (existsb_disjoint f g l Hall);
        let e := fresh "e" in let He := fresh "He" in
        intros e He; destruct e; simpl in *; congruence);
  rewrite ?H.

(** * The calls of Plan *)

Section PlanCalls.

Variable W : Type.
Variable NewProject : string -> string -> Project.
Variable filepath_Join : string -> string -> string.
Variable p : DefaultProjectCommandRunner W.
Variable ctx : ProjectCommandContext.

(** The calls of one [Plan], exit by exit: the project [TryLock] alone; or
    up to the failed working-directory [TryLock]; or up to the clone, then
    the release of the project lock and that of the working-directory lock;
    or on through the steps to the same two releases; or through the steps
    to the lock URL and the release of the working-directory lock, and only
    then is there a plan in the result. *)
Lemma Plan_trace_shape (st : State W) :
  exists delta,
    trace (snd (Plan NewProject filepath_Join p ctx st)) = trace st ++ delta /\
    ((delta = [evLockerTryLock NewProject ctx] /\
      PlanSuccess (fst (Plan NewProject filepath_Join p ctx st)) = None) \/
     (delta = [evLockerTryLock NewProject ctx;
               EvLogDebug "acquired lock for project" [];
               evWorkingDirTryLock ctx] /\
      PlanSuccess (fst (Plan NewProject filepath_Join p ctx st)) = None) \/
     (exists ue,
        delta = planReached NewProject ctx ++
                EvProjectUnlock :: unlockLog ue ++ [EvWorkingDirUnlock] /\
        PlanSuccess (fst (Plan NewProject filepath_Join p ctx st)) = None) \/
     (exists logs runs ue,
        delta = planReached NewProject ctx ++ logs ++ runs ++
                EvProjectUnlock :: unlockLog ue ++ [EvWorkingDirUnlock] /\
        forallb is_log logs = true /\ forallb is_run runs = true /\
        PlanSuccess (fst (Plan NewProject filepath_Join p ctx st)) = None) \/
     (exists logs runs key,
        delta = planReached NewProject ctx ++ logs ++ runs ++
                [EvGenerateLockURL key; EvWorkingDirUnlock] /\
        forallb is_log logs = true /\ forallb is_run runs = true /\
        PlanSuccess (fst (Plan NewProject filepath_Join p ctx st)) <> None)).
Proof.
  unfold Plan, doPlan, defer, unlockAfterPlanError, bind, call, emit, ret.
  simpl.
  destruct (Locker p _ _ _ _ (world st)) as [[la [e|]] w1]; simpl.
  { eexists. split; [reflexivity|]. left. split; reflexivity. }
  destruct (LockAcquired la); simpl.
  2:{ eexists. split; [reflexivity|]. left. split; reflexivity. }
  destruct (WorkingDirLocker p _ _ _ w1) as [[unlockFn [e|]] w2]; simpl.
  { eexists. split; [rewrite <- !app_assoc; reflexivity|].
    right; left. split; reflexivity. }
  destruct (Clone (WorkingDir p) _ _ _ _ _ w2) as [[repoDir [ce|]] w3]; simpl.
  { destruct (UnlockFn la w3) as [ue w4]; simpl.
    exists (planReached NewProject ctx ++
            EvProjectUnlock :: unlockLog ue ++ [EvWorkingDirUnlock]).
    destruct ue as [ue|]; simpl;
      (split; [rewrite <- !app_assoc; reflexivity|]);
      right; right; left;
      [exists (Some ue) | exists None]; split; reflexivity. }
  match goal with
  | |- context [planStage p ctx ?X] =>
      destruct (planStage_logs W p ctx X) as (logs & Hlogs & Hl);
      destruct (planStage p ctx X) as [stage st4]
  end.
  simpl in Hlogs. subst st4.
  match goal with
  | |- context [runSteps p ?S ctx ?P ?X] =>
      destruct (runSteps_runs W p ctx S P X) as (runs & Hruns & Hr & _);
      destruct (runSteps p S ctx P X) as [[outs err] st5]
  end.
  simpl in Hruns.
  destruct err as [e|].
  - destruct (UnlockFn la (world st5)) as [ue w6]; simpl.
    exists (planReached NewProject ctx ++ logs ++ runs ++
            EvProjectUnlock :: unlockLog ue ++ [EvWorkingDirUnlock]).
    destruct ue as [ue|]; simpl; rewrite Hruns;
      (split; [rewrite <- !app_assoc; reflexivity|]);
      right; right; right; left;
      [exists logs, runs, (Some ue) | exists logs, runs, None];
      repeat split; assumption.
  - destruct (LockURLGenerator p (LockKey la) (world st5)) as [url w6]; simpl.
    rewrite Hruns.
    exists (planReached NewProject ctx ++ logs ++ runs ++
            [EvGenerateLockURL (LockKey la); EvWorkingDirUnlock]).
    split; [rewrite <- !app_assoc; reflexivity|].
    right; right; right; right.
    exists logs, runs, (LockKey la).
    repeat split; try assumption. discriminate.
Qed.

(** X1: every [Plan] starts with the [TryLock] of the project locker, and
    that is its only call of it. *)
Theorem Plan_locks_project_first_and_once (st : State W) :
  (exists rest,
     trace (snd (Plan NewProject filepath_Join p ctx st))
     = trace st ++ evLockerTryLock NewProject ctx :: rest) /\
  count is_locker_trylock (trace (snd (Plan NewProject filepath_Join p ctx st)))
  = count is_locker_trylock (trace st) + 1.
Proof.
  destruct (Plan_trace_shape st) as (delta & Htr & Hshape).
  rewrite Htr.
  destruct Hshape as [[-> _] | [[-> _] | [(ue & -> & _)
    | [(logs & runs & ue & -> & Hl & Hr & _)
      | (logs & runs & key & -> & Hl & Hr & _)]]]];
    (split; [eexists; reflexivity|]);
    count_plan is_locker_trylock logs runs Hl Hr.
Qed.

(** X2: a [Plan] calls the release function of the project lock at most
    once.  When the result carries a plan it has not called it, so that the
    lock stays held, and it has asked for the lock URL exactly once; when
    the result carries no plan it has not asked for a lock URL. *)
Theorem Plan_project_unlock_at_most_once (st : State W) :
  let st' := snd (Plan NewProject filepath_Join p ctx st) in
  let r := fst (Plan NewProject filepath_Join p ctx st) in
  count is_project_unlock (trace st')
    <= count is_project_unlock (trace st) + 1 /\
  (PlanSuccess r <> None ->
   count is_project_unlock (trace st') = count is_project_unlock (trace st) /\
   count is_generate_lock_url (trace st')
     = count is_generate_lock_url (trace st) + 1) /\
  (PlanSuccess r = None ->
   count is_generate_lock_url (trace st')
     = count is_generate_lock_url (trace st)).
Proof.
  intros st' r. subst st' r.
  destruct (Plan_trace_shape st) as (delta & Htr & Hshape).
  rewrite Htr.
  destruct Hshape as [[-> Hr0] | [[-> Hr0] | [(ue & -> & Hr0)
    | [(logs & runs & ue & -> & Hl & Hr & Hr0)
      | (logs & runs & key & -> & Hl & Hr & Hr0)]]]];
    (split; [count_plan is_project_unlock logs runs Hl Hr|]);
    (split; [intros Hsome;
             first [congruence
                   |split; [count_plan is_project_unlock logs runs Hl Hr
                           |count_plan is_generate_lock_url logs runs Hl Hr]]
            |intros Hnone;
             first [congruence
                   |count_plan is_generate_lock_url logs runs Hl Hr]]).
Qed.

(** No event of kind [f] in what [Plan] calls under the working-directory
    lock. *)
Ltac none_in_work f logs runs Hl Hr :=
  rewrite ?existsb_app;
  try none_of f is_log logs Hl;
  try none_of f is_run runs Hr;
  repeat match goal with
         | |- context [unlockLog ?ue] => is_var ue; destruct ue
         end;
  reflexivity.

(** X3: the calls of one [Plan] in their order.  First come calls that are
    neither a request nor a release of the working-directory lock, nor a
    clone, nor a step.  Then either nothing; or the request of the
    working-directory lock as the last call; or that request, the clone
    right after it, further calls among which there is no second request,
    no release and no second clone, and the release of the
    working-directory lock as the last call.  So the lock is requested at
    most once, the clone comes only right after the request, every step
    comes after the clone and before the release, and nothing follows the
    release. *)
Theorem Plan_works_under_workdir_lock (st : State W) :
  exists before rest,
    trace (snd (Plan NewProject filepath_Join p ctx st))
      = trace st ++ before ++ rest /\
    existsb is_workdir_trylock before = false /\
    existsb is_workdir_unlock before = false /\
    existsb is_clone before = false /\
    existsb is_run before = false /\
    (rest = [] \/
     rest = [evWorkingDirTryLock ctx] \/
     exists work,
       rest = evWorkingDirTryLock ctx :: evClone ctx ::
              work ++ [EvWorkingDirUnlock] /\
       existsb is_workdir_trylock work = false /\
       existsb is_workdir_unlock work = false /\
       existsb is_clone work = false).
Proof.
  destruct (Plan_trace_shape st) as (delta & Htr & Hshape).
  rewrite Htr.
  destruct Hshape as [[-> _] | [[-> _] | [(ue & -> & _)
    | [(logs & runs & ue & -> & Hl & Hr & _)
      | (logs & runs & key & -> & Hl & Hr & _)]]]].
  - exists [evLockerTryLock NewProject ctx], [].
    repeat split; auto.
  - exists [evLockerTryLock NewProject ctx;
            EvLogDebug "acquired lock for project" []],
           [evWorkingDirTryLock ctx].
    repeat split; auto.
  - exists [evLockerTryLock NewProject ctx;
            EvLogDebug "acquired lock for project" []],
           (evWorkingDirTryLock ctx :: evClone ctx ::
            (EvProjectUnlock :: unlockLog ue) ++ [EvWorkingDirUnlock]).
    repeat split; auto.
    right; right. exists (EvProjectUnlock :: unlockLog ue).
    repeat split; destruct ue; reflexivity.
  - exists [evLockerTryLock NewProject ctx;
            EvLogDebug "acquired lock for project" []],
           (evWorkingDirTryLock ctx :: evClone ctx ::
            (logs ++ runs ++ EvProjectUnlock :: unlockLog ue)
            ++ [EvWorkingDirUnlock]).
    split; [unfold planReached; simpl; rewrite <- !app_assoc; reflexivity|].
    repeat split; auto.
    right; right. exists (logs ++ runs ++ EvProjectUnlock :: unlockLog ue).
    split; [reflexivity|].
    split; [|split];
      match goal with
      | |- existsb ?f _ = false => none_in_work f logs runs Hl Hr
      end.
  - exists [evLockerTryLock NewProject ctx;
            EvLogDebug "acquired lock for project" []],
           (evWorkingDirTryLock ctx :: evClone ctx ::
            (logs ++ runs ++ [EvGenerateLockURL key])
            ++ [EvWorkingDirUnlock]).
    split; [unfold planReached; simpl; rewrite <- !app_assoc; reflexivity|].
    repeat split; auto.
    right; right. exists (logs ++ runs ++ [EvGenerateLockURL key]).
    split; [reflexivity|].
    split; [|split];
      match goal with
      | |- existsb ?f _ = false => none_in_work f logs runs Hl Hr
      end.
Qed.

End PlanCalls.

(** * The exits of Plan *)

Section PlanExits.

Variable W : Type.
Variable NewProject : string -> string -> Project.
Variable filepath_Join : string -> string -> string.
Variable p : DefaultProjectCommandRunner W.
Variable ctx : ProjectCommandContext.

(** X4: when the project locker itself fails, [Plan] returns its error
    behind the prefix "acquiring lock: " and has called nothing else. *)
Theorem Plan_locker_error
    (st : State W) (lockAttempt : LockAttempt W) (e : error) (w1 : W) :
  Locker p (Pull ctx) (User_ ctx) (Workspace ctx)
    (NewProject (FullName (BaseRepo ctx)) (RepoRelDir ctx)) (world st)
    = ((lockAttempt, Some e), w1) ->
  Plan NewProject filepath_Join p ctx st
  = (unsuccessful ctx ""
       (Some {| Error_ := "acquiring lock: " ++ Error_ e;
                notExist := false |}),
     {| world := w1;
        trace := trace st ++ [evLockerTryLock NewProject ctx] |}).
Proof.
  intros Hlock.
  unfold Plan, doPlan, bind, call, ret. simpl. rewrite Hlock. reflexivity.
Qed.

(** X5: once the working-directory lock is acquired, whatever happens next
    (clone failure, step failure, success), [Plan] ends by running the
    release closure the locker returned: it is the last thing to act on the
    world and the last call, and it is called once. *)
Theorem Plan_releases_workdir_lock_last
    (st : State W) (lockAttempt : LockAttempt W) (w1 w2 : W)
    (unlockFn : W -> W) :
  Locker p (Pull ctx) (User_ ctx) (Workspace ctx)
    (NewProject (FullName (BaseRepo ctx)) (RepoRelDir ctx)) (world st)
    = ((lockAttempt, None), w1) ->
  LockAcquired lockAttempt = true ->
  WorkingDirLocker p (FullName (BaseRepo ctx)) (Num (Pull ctx))
    (Workspace ctx) w1 = ((unlockFn, None), w2) ->
  exists w t,
    snd (Plan NewProject filepath_Join p ctx st)
    = {| world := unlockFn w; trace := t ++ [EvWorkingDirUnlock] |} /\
    count is_workdir_unlock t = count is_workdir_unlock (trace st).
Proof.
  intros Hlock Hacq Hwd.
  unfold Plan, doPlan, defer, unlockAfterPlanError, bind, call, emit, ret.
  simpl. rewrite Hlock. simpl. rewrite Hacq. simpl. rewrite Hwd. simpl.
  destruct (Clone (WorkingDir p) _ _ _ _ _ w2) as [[repoDir [ce|]] w3]; simpl.
  { destruct (UnlockFn lockAttempt w3) as [[ue|] w4]; simpl;
      do 2 eexists; (split; [reflexivity|]);
      rewrite !count_app; unfold count; simpl; lia. }
  match goal with
  | |- context [planStage p ctx ?X] =>
      destruct (planStage_logs W p ctx X) as (logs & Hlogs & Hl);
      destruct (planStage p ctx X) as [stage st4]
  end.
  simpl in Hlogs. subst st4.
  match goal with
  | |- context [runSteps p ?S ctx ?P ?X] =>
      destruct (runSteps_runs W p ctx S P X) as (runs & Hruns & Hr & _);
      destruct (runSteps p S ctx P X) as [[outs err] st5]
  end.
  simpl in Hruns.
  assert (Hst5 : count is_workdir_unlock (trace st5)
                 = count is_workdir_unlock (trace st)).
  { rewrite Hruns, !count_app.
    count_zero is_workdir_unlock is_log logs Hl.
    count_zero is_workdir_unlock is_run runs Hr.
    unfold count; simpl; lia. }
  destruct err as [e|].
  - destruct (UnlockFn lockAttempt (world st5)) as [[ue|] w6]; simpl;
      do 2 eexists; (split; [reflexivity|]);
      rewrite !count_app, Hst5; unfold count; simpl; lia.
  - destruct (LockURLGenerator p (LockKey lockAttempt) (world st5))
      as [url w6]; simpl.
    do 2 eexists. split; [reflexivity|].
    rewrite !count_app, Hst5. unfold count; simpl; lia.
Qed.

(** X6: when every stage of [Plan] succeeds, the result carries the plan
    and nothing else: the outputs of the steps joined by newlines, the URL
    the generator gives for the key of the lock attempt, and the two
    commands of the request; the last two calls are the generator and the
    release of the working-directory lock. *)
Theorem Plan_success
    (st : State W) (lockAttempt : LockAttempt W) (w1 w2 w3 w6 : W)
    (unlockFn : W -> W) (repoDir : string) (stage : Stage)
    (st4 st5 : State W) (outs : list string) (url : string) :
  Locker p (Pull ctx) (User_ ctx) (Workspace ctx)
    (NewProject (FullName (BaseRepo ctx)) (RepoRelDir ctx)) (world st)
    = ((lockAttempt, None), w1) ->
  LockAcquired lockAttempt = true ->
  WorkingDirLocker p (FullName (BaseRepo ctx)) (Num (Pull ctx))
    (Workspace ctx) w1 = ((unlockFn, None), w2) ->
  Clone (WorkingDir p) (BaseRepo ctx) (HeadRepo ctx) (Pull ctx)
    (RebaseRepo ctx) (Workspace ctx) w2 = ((repoDir, None), w3) ->
  planStage p ctx
    {| world := w3; trace := trace st ++ planReached NewProject ctx |}
    = (stage, st4) ->
  runSteps p (Steps stage) ctx (filepath_Join repoDir (RepoRelDir ctx)) st4
    = ((outs, None), st5) ->
  LockURLGenerator p (LockKey lockAttempt) (world st5) = (url, w6) ->
  Plan NewProject filepath_Join p ctx st
  = ({| PlanSuccess :=
          Some {| TerraformOutput := strings.Join outs nl;
                  LockURL := url;
                  ps_RePlanCmd := RePlanCmd ctx;
                  ps_ApplyCmd := ApplyCmd ctx |};
        ApplySuccess := "";
        Failure := "";
        Error := None;
        pr_RepoRelDir := RepoRelDir ctx;
        pr_Workspace := Workspace ctx;
        pr_ProjectName := GetProjectName ctx |},
     {| world := unlockFn w6;
        trace := trace st5 ++
                 [EvGenerateLockURL (LockKey lockAttempt);
                  EvWorkingDirUnlock] |}).
Proof.
  intros Hlock Hacq Hwd Hclone Hstage Hrun Hurl.
  unfold Plan, doPlan, defer, bind, call, emit, ret.
  simpl. rewrite Hlock. simpl. rewrite Hacq. simpl. rewrite Hwd. simpl.
  rewrite Hclone. simpl.
  unfold planReached, evLockerTryLock, evWorkingDirTryLock, evClone in Hstage.
  rewrite <- !app_assoc. simpl.
  rewrite Hstage. rewrite Hrun. rewrite Hurl. simpl.
  rewrite <- !app_assoc. reflexivity.
Qed.

End PlanExits.

(** * The calls of Apply *)

Section ApplyCalls.

Variable W : Type.
Variable filepath_Join : string -> string -> string.
Variable p : DefaultProjectCommandRunner W.
Variable ctx : ProjectCommandContext.

(** The calls of one [Apply], exit by exit: the lookup alone, with an
    error; or the lookup and calls of the approval checker; or those and
    the failed working-directory [TryLock], with an error; or on through
    the steps to the webhook, sent with the outcome of the steps, and the
    release of the working-directory lock. *)
Lemma Apply_trace_shape (st : State W) :
  exists delta,
    trace (snd (Apply filepath_Join p ctx st)) = trace st ++ delta /\
    ((delta = [evGetWorkingDir ctx] /\
      Error (fst (Apply filepath_Join p ctx st)) <> None) \/
     (exists calls,
        delta = evGetWorkingDir ctx :: calls /\
        forallb is_pull_is_approved calls = true /\
        length calls
          <= count_occ string_dec (applyRequirements p ctx)
               ApprovedApplyRequirement) \/
     (exists calls,
        delta = evGetWorkingDir ctx :: calls ++ [evWorkingDirTryLock ctx] /\
        forallb is_pull_is_approved calls = true /\
        length calls
          <= count_occ string_dec (applyRequirements p ctx)
               ApprovedApplyRequirement /\
        Error (fst (Apply filepath_Join p ctx st)) <> None) \/
     (exists calls runs err,
        delta = evGetWorkingDir ctx :: calls ++ [evWorkingDirTryLock ctx] ++
                runs ++ [evWebhooksSend ctx err; EvWorkingDirUnlock] /\
        forallb is_pull_is_approved calls = true /\
        length calls
          <= count_occ string_dec (applyRequirements p ctx)
               ApprovedApplyRequirement /\
        forallb is_run runs = true /\
        (err = None <-> Error (fst (Apply filepath_Join p ctx st)) = None))).
Proof.
  destruct (Apply filepath_Join p ctx st) as [r st'] eqn:HA. simpl.
  unfold Apply, doApply in HA.
  unfold bind at 1 2 in HA. unfold call at 1 in HA.
  destruct (GetWorkingDir (WorkingDir p) _ _ _ (world st))
    as [[repoDir [e|]] w1].
  { exists [evGetWorkingDir ctx]. unfold ret in HA.
    destruct (os.IsNotExist e); inversion HA; subst; simpl;
      (split; [reflexivity|]); left; (split; [reflexivity|discriminate]). }
  unfold bind at 1 in HA.
  match type of HA with
  | context [checkRequirements p ctx ?R ?X] =>
      destruct (checkRequirements_calls W p ctx R X)
        as (calls & Hcalls & Hc & Hlen);
      destruct (checkRequirements p ctx R X) as [[early|] st2]
  end; simpl in Hcalls.
  { exists (evGetWorkingDir ctx :: calls). unfold ret in HA.
    destruct early as [[out failure] err]. inversion HA; subst. simpl.
    rewrite Hcalls.
    split; [rewrite <- ?app_assoc; simpl; rewrite <- ?app_assoc; reflexivity|].
    right; left. exists calls. auto. }
  unfold bind at 1 in HA. unfold call at 1 in HA.
  destruct (WorkingDirLocker p _ _ _ (world st2)) as [[unlockFn [e|]] w3].
  { exists (evGetWorkingDir ctx :: calls ++ [evWorkingDirTryLock ctx]).
    unfold ret in HA. inversion HA; subst. simpl. rewrite Hcalls.
    split; [rewrite <- ?app_assoc; simpl; rewrite <- ?app_assoc; reflexivity|].
    right; right; left. exists calls. repeat split; auto. discriminate. }
  unfold defer in HA. unfold bind at 1 2 in HA.
  match type of HA with
  | context [runSteps p ?S ctx ?P ?X] =>
      destruct (runSteps_runs W p ctx S P X) as (runs & Hruns & Hr & _);
      destruct (runSteps p S ctx P X) as [[outs err] st4]
  end.
  simpl in Hruns.
  unfold bind, call, ret in HA.
  destruct (Webhooks p _ (world st4)) as [werr w5].
  exists (evGetWorkingDir ctx :: calls ++ [evWorkingDirTryLock ctx] ++
          runs ++ [evWebhooksSend ctx err; EvWorkingDirUnlock]).
  destruct err as [e|]; inversion HA; subst; simpl; rewrite Hruns, Hcalls;
    (split; [rewrite <- ?app_assoc; simpl; rewrite <- ?app_assoc;
             reflexivity|]);
    right; right; right;
    [exists calls, runs, (Some e) | exists calls, runs, None];
    repeat split; auto; discriminate.
Qed.

(** Bring the counts of a trace of [Apply] down to numbers. *)
Ltac count_apply2 f g calls runs Hc Hr :=
  rewrite ?count_app;
  change (evGetWorkingDir ctx :: ?l) with ([evGetWorkingDir ctx] ++ l);
  rewrite ?count_app;
  try count_zero f is_pull_is_approved calls Hc;
  try count_zero f is_run runs Hr;
  try count_zero g is_pull_is_approved calls Hc;
  try count_zero g is_run runs Hr;
  unfold count; simpl; try lia.

Ltac count_apply f calls runs Hc Hr :=
  count_apply2 f f calls runs Hc Hr.

(** X7: [Apply] never calls the project locker, the release function of a
    project lock, the clone or the lock URL generator. *)
Theorem Apply_never_touches_project_lock (st : State W) :
  let st' := snd (Apply filepath_Join p ctx st) in
  count is_locker_trylock (trace st') = count is_locker_trylock (trace st) /\
  count is_project_unlock (trace st') = count is_project_unlock (trace st) /\
  count is_clone (trace st') = count is_clone (trace st) /\
  count is_generate_lock_url (trace st')
    = count is_generate_lock_url (trace st).
Proof.
  intros st'. subst st'.
  destruct (Apply_trace_shape st) as (delta & Htr & Hshape).
  rewrite Htr.
  destruct Hshape as [[-> _] | [(calls & -> & Hc & _)
    | [(calls & -> & Hc & _) | (calls & runs & err & -> & Hc & _ & Hr & _)]]];
    repeat split;
    match goal with
    | |- count ?f _ = _ => count_apply f calls runs Hc Hr
    end.
Qed.

(** X8: [Apply] calls the approval checker at most once for each
    "approved" among the requirements it evaluates; so not at all when there
    is none, and at most once under the server-wide override. *)
Theorem Apply_approval_checks_bounded (st : State W) :
  count is_pull_is_approved (trace (snd (Apply filepath_Join p ctx st)))
  <= count is_pull_is_approved (trace st)
     + count_occ string_dec (applyRequirements p ctx)
         ApprovedApplyRequirement /\
  (RequireApprovalOverride p = true ->
   count_occ string_dec (applyRequirements p ctx) ApprovedApplyRequirement
   = 1).
Proof.
  split.
  - destruct (Apply_trace_shape st) as (delta & Htr & Hshape).
    rewrite Htr, count_app.
    enough (count is_pull_is_approved delta
            <= count_occ string_dec (applyRequirements p ctx)
                 ApprovedApplyRequirement) by lia.
    assert (HG : count is_pull_is_approved [evGetWorkingDir ctx] = 0)
      by reflexivity.
    assert (HL : count is_pull_is_approved [evWorkingDirTryLock ctx] = 0)
      by reflexivity.
    assert (HW : forall err,
              count is_pull_is_approved
                [evWebhooksSend ctx err; EvWorkingDirUnlock] = 0)
      by reflexivity.
    destruct Hshape as [[-> _] | [(calls & -> & Hc & Hlen)
      | [(calls & -> & Hc & Hlen & _)
        | (calls & runs & err & -> & Hc & Hlen & Hr & _)]]];
      try pose proof (count_le_length is_pull_is_approved calls);
      change (evGetWorkingDir ctx :: ?l) with ([evGetWorkingDir ctx] ++ l);
      rewrite ?count_app, ?HG, ?HL, ?HW;
      try count_zero is_pull_is_approved is_run runs Hr;
      unfold count in *; simpl; lia.
  - intros Hover. unfold applyRequirements. rewrite Hover. reflexivity.
Qed.

(** X9: the calls of one [Apply] in their order.  First come calls that
    are neither a request nor a release of the working-directory lock, nor
    a webhook, nor a step.  Then either nothing; or the request of the
    working-directory lock as the last call; or that request, then calls
    of step runners and nothing else, then one webhook, then the release of
    the working-directory lock as the last call.  So the release comes only
    after the request, the webhook is sent once, after every step and right
    before the release, and neither happens without the request.  The
    webhook names the request's workspace, user, repository and pull
    request, and its success flag is set exactly when the result carries no
    error. *)
Theorem Apply_webhook_follows_pipeline (st : State W) :
  exists before rest,
    trace (snd (Apply filepath_Join p ctx st)) = trace st ++ before ++ rest /\
    existsb is_workdir_trylock before = false /\
    existsb is_workdir_unlock before = false /\
    existsb is_webhook before = false /\
    existsb is_run before = false /\
    (rest = [] \/
     rest = [evWorkingDirTryLock ctx] \/
     exists runs res,
       rest = evWorkingDirTryLock ctx :: runs ++
              [EvWebhooksSend res; EvWorkingDirUnlock] /\
       forallb is_run runs = true /\
       (ar_Success res = true <->
        Error (fst (Apply filepath_Join p ctx st)) = None) /\
       ar_Workspace res = Workspace ctx /\
       ar_User res = User_ ctx /\
       ar_Repo res = BaseRepo ctx /\
       ar_Pull res = Pull ctx).
Proof.
  destruct (Apply_trace_shape st) as (delta & Htr & Hshape).
  rewrite Htr.
  assert (Hbefore : forall calls,
            forallb is_pull_is_approved calls = true ->
            existsb is_workdir_trylock (evGetWorkingDir ctx :: calls) = false /\
            existsb is_workdir_unlock (evGetWorkingDir ctx :: calls) = false /\
            existsb is_webhook (evGetWorkingDir ctx :: calls) = false /\
            existsb is_run (evGetWorkingDir ctx :: calls) = false).
  { intros calls Hc. simpl.
    none_of is_workdir_trylock is_pull_is_approved calls Hc.
    none_of is_workdir_unlock is_pull_is_approved calls Hc.
    none_of is_webhook is_pull_is_approved calls Hc.
    none_of is_run is_pull_is_approved calls Hc.
    auto. }
  destruct Hshape as [[-> _] | [(calls & -> & Hc & _)
    | [(calls & -> & Hc & _)
      | (calls & runs & err & -> & Hc & _ & Hr & Herr)]]].
  - exists [evGetWorkingDir ctx], []. repeat split; auto.
  - exists (evGetWorkingDir ctx :: calls), [].
    rewrite app_nil_r. split; [reflexivity|].
    destruct (Hbefore calls Hc) as (H1 & H2 & H3 & H4). auto 10.
  - exists (evGetWorkingDir ctx :: calls), [evWorkingDirTryLock ctx].
    split; [reflexivity|].
    destruct (Hbefore calls Hc) as (H1 & H2 & H3 & H4). auto 10.
  - exists (evGetWorkingDir ctx :: calls),
           (evWorkingDirTryLock ctx :: runs ++
            [evWebhooksSend ctx err; EvWorkingDirUnlock]).
    split; [reflexivity|].
    destruct (Hbefore calls Hc) as (H1 & H2 & H3 & H4).
    repeat (split; [assumption|]).
    right; right. eexists runs, _. split; [reflexivity|].
    split; [exact Hr|]. simpl. repeat split; auto.
    + intros Hflag. destruct err; [discriminate Hflag | now apply Herr].
    + intros Hnone. apply Herr in Hnone. now rewrite Hnone.
Qed.

End ApplyCalls.

(** * The exits of Apply *)

Section ApplyExits.

Variable W : Type.
Variable filepath_Join : string -> string -> string.
Variable p : DefaultProjectCommandRunner W.
Variable ctx : ProjectCommandContext.

(** The pipeline and the requirement loop do not look at the webhook
    sender. *)
Lemma runSteps_loop_webhooks (e : error) (absPath : string)
    (steps : list Step) :
  forall acc st,
    runSteps_loop (withFailingWebhooks e p) ctx absPath steps acc st
    = runSteps_loop p ctx absPath steps acc st /\
    runSteps_loop (withSilentWebhooks p) ctx absPath steps acc st
    = runSteps_loop p ctx absPath steps acc st.
Proof.
  induction steps as [|step rest IH]; intros acc st; simpl; [auto|].
  unfold bind.
  change (runStep (withFailingWebhooks e p) ctx absPath step st)
    with (runStep p ctx absPath step st).
  change (runStep (withSilentWebhooks p) ctx absPath step st)
    with (runStep p ctx absPath step st).
  destruct (runStep p ctx absPath step st) as [[out [se|]] st1]; auto.
Qed.

Lemma checkRequirements_webhooks (e : error) (reqs : list string) :
  forall st,
    checkRequirements (withFailingWebhooks e p) ctx reqs st
    = checkRequirements p ctx reqs st /\
    checkRequirements (withSilentWebhooks p) ctx reqs st
    = checkRequirements p ctx reqs st.
Proof.
  induction reqs as [|req rest IH]; intros st; simpl; [auto|].
  destruct (req =? ApprovedApplyRequirement); [|apply IH].
  unfold bind, call. simpl.
  destruct (PullApprovedChecker p (BaseRepo ctx) (Pull ctx) (world st))
    as [[approved [ce|]] w1]; simpl; auto.
  destruct approved; simpl; auto.
Qed.

(** X10: the error the webhook sender returns plays no part in [Apply]:
    with a sender that acts on the world in the same way and always fails,
    or never fails, [Apply] returns the same result in the same final
    state. *)
Theorem Apply_ignores_webhook_error (e : error) (st : State W) :
  Apply filepath_Join (withFailingWebhooks e p) ctx st
    = Apply filepath_Join p ctx st /\
  Apply filepath_Join (withSilentWebhooks p) ctx st
    = Apply filepath_Join p ctx st.
Proof.
  unfold Apply, doApply, defer, runSteps, bind, call, ret. simpl.
  destruct (GetWorkingDir (WorkingDir p) _ _ _ (world st))
    as [[repoDir [ge|]] w1]; simpl; [split; reflexivity|].
  change (applyRequirements (withFailingWebhooks e p) ctx)
    with (applyRequirements p ctx).
  change (applyRequirements (withSilentWebhooks p) ctx)
    with (applyRequirements p ctx).
  match goal with
  | |- context [checkRequirements p ctx ?R ?X] =>
      rewrite (proj1 (checkRequirements_webhooks e R X));
      rewrite (proj2 (checkRequirements_webhooks e R X));
      destruct (checkRequirements p ctx R X) as [[early|] st2]
  end; simpl; [split; reflexivity|].
  destruct (WorkingDirLocker p _ _ _ (world st2)) as [[unlockFn [le|]] w3];
    simpl; [split; reflexivity|].
  change (applyStage (withFailingWebhooks e p) ctx) with (applyStage p ctx).
  change (applyStage (withSilentWebhooks p) ctx) with (applyStage p ctx).
  match goal with
  | |- context [runSteps_loop p ctx ?P ?S ?A ?X] =>
      rewrite (proj1 (runSteps_loop_webhooks e P S A X));
      rewrite (proj2 (runSteps_loop_webhooks e P S A X));
      destruct (runSteps_loop p ctx P S A X) as [[outs err] st4]
  end.
  simpl.
  destruct (Webhooks p _ (world st4)) as [werr w5]. simpl.
  split; reflexivity.
Qed.

(** X11: when the working directory is found and the requirements are
    met but the working-directory locker returns an error, [Apply] returns
    that error as it is; no step runs, no webhook is sent, and the world is
    left as the locker left it. *)
Theorem Apply_workdir_lock_failure
    (st st2 : State W) (repoDir : string) (w1 w3 : W)
    (unlockFn : W -> W) (e : error) :
  GetWorkingDir (WorkingDir p) (BaseRepo ctx) (Pull ctx) (Workspace ctx)
    (world st) = ((repoDir, None), w1) ->
  checkRequirements p ctx (applyRequirements p ctx)
    {| world := w1; trace := trace st ++ [evGetWorkingDir ctx] |}
    = (None, st2) ->
  WorkingDirLocker p (FullName (BaseRepo ctx)) (Num (Pull ctx))
    (Workspace ctx) (world st2) = ((unlockFn, Some e), w3) ->
  Apply filepath_Join p ctx st
  = (unsuccessful ctx "" (Some e),
     {| world := w3; trace := trace st2 ++ [evWorkingDirTryLock ctx] |}).
Proof.
  intros Hget Hreq Hwd.
  unfold Apply, doApply. unfold bind at 1 2. unfold call at 1.
  rewrite Hget. unfold bind at 1.
  unfold evGetWorkingDir in Hreq. rewrite Hreq.
  unfold bind at 1. unfold call at 1. rewrite Hwd. reflexivity.
Qed.

(** X12: when the steps of [Apply] all succeed, the result carries their
    outputs joined by newlines and nothing else, whatever the webhook
    sender returns; the webhook was sent with the success flag, and the
    release of the working-directory lock is the last thing to act on the
    world. *)
Theorem Apply_success
    (st st2 st4 : State W) (repoDir : string) (w1 w3 w5 : W)
    (unlockFn : W -> W) (outs : list string) (werr : option error) :
  GetWorkingDir (WorkingDir p) (BaseRepo ctx) (Pull ctx) (Workspace ctx)
    (world st) = ((repoDir, None), w1) ->
  checkRequirements p ctx (applyRequirements p ctx)
    {| world := w1; trace := trace st ++ [evGetWorkingDir ctx] |}
    = (None, st2) ->
  WorkingDirLocker p (FullName (BaseRepo ctx)) (Num (Pull ctx))
    (Workspace ctx) (world st2) = ((unlockFn, None), w3) ->
  runSteps p (Steps (applyStage p ctx)) ctx
    (filepath_Join repoDir (RepoRelDir ctx))
    {| world := w3; trace := trace st2 ++ [evWorkingDirTryLock ctx] |}
    = ((outs, None), st4) ->
  Webhooks p {| ar_Workspace := Workspace ctx;
                ar_User := User_ ctx;
                ar_Repo := BaseRepo ctx;
                ar_Pull := Pull ctx;
                ar_Success := true |} (world st4) = (werr, w5) ->
  Apply filepath_Join p ctx st
  = ({| PlanSuccess := None;
        ApplySuccess := strings.Join outs nl;
        Failure := "";
        Error := None;
        pr_RepoRelDir := RepoRelDir ctx;
        pr_Workspace := Workspace ctx;
        pr_ProjectName := GetProjectName ctx |},
     {| world := unlockFn w5;
        trace := trace st4 ++
                 [evWebhooksSend ctx None; EvWorkingDirUnlock] |}).
Proof.
  intros Hget Hreq Hwd Hrun Hsend.
  unfold Apply, doApply. unfold bind at 1 2. unfold call at 1.
  rewrite Hget. unfold bind at 1.
  unfold evGetWorkingDir in Hreq. rewrite Hreq.
  unfold bind at 1. unfold call at 1. rewrite Hwd.
  unfold defer. unfold bind at 1 2.
  unfold evWorkingDirTryLock in Hrun. rewrite Hrun.
  unfold bind, call, ret. rewrite Hsend. simpl.
  rewrite <- app_assoc. reflexivity.
Qed.

(** X13: with a checker that finds the pull request approved on every
    call, whatever it does to the world, the requirement loop lets [doApply]
    go on, having called the checker once for each "approved" in the list,
    one call after the other; every other requirement name is passed over
    without a call. *)
Theorem checkRequirements_all_approved (reqs : list string) (st : State W) :
  (forall w,
     fst (PullApprovedChecker p (BaseRepo ctx) (Pull ctx) w) = (true, None)) ->
  checkRequirements p ctx reqs st
  = (None,
     {| world :=
          Nat.iter (count_occ string_dec reqs ApprovedApplyRequirement)
            (fun w => snd (PullApprovedChecker p (BaseRepo ctx) (Pull ctx) w))
            (world st);
        trace := trace st ++
                 repeat (evPullIsApproved ctx)
                   (count_occ string_dec reqs ApprovedApplyRequirement) |}).
Proof.
  intros Hok. revert st.
  induction reqs as [|req rest IH]; intros st; simpl.
  - unfold ret. destruct st; simpl. now rewrite app_nil_r.
  - destruct (req =? ApprovedApplyRequirement) eqn:Hreq.
    + apply String.eqb_eq in Hreq. subst req.
      destruct (string_dec ApprovedApplyRequirement ApprovedApplyRequirement)
        as [_|Hne]; [|now destruct Hne].
      unfold bind, call. specialize (Hok (world st)).
      rewrite Nat.iter_succ_r.
      destruct (PullApprovedChecker p (BaseRepo ctx) (Pull ctx) (world st))
        as [answer w1].
      simpl in Hok. subst answer. simpl.
      rewrite IH. simpl. rewrite <- app_assoc. reflexivity.
    + apply String.eqb_neq in Hreq.
      destruct (string_dec req ApprovedApplyRequirement) as [Heq|_];
        [now destruct Hreq|].
      apply IH.
Qed.

End ApplyExits.

(** * More on the step pipeline *)

Section PipelineMore.

Variable W : Type.
Variable p : DefaultProjectCommandRunner W.
Variable ctx : ProjectCommandContext.
Variable absPath : string.

(** The outputs the loop starts with stay in front of what it adds. *)
Lemma runSteps_loop_acc (steps : list Step) :
  forall (acc : list string) (st : State W),
    runSteps_loop p ctx absPath steps acc st
    = (let '((outs, err), st') := runSteps_loop p ctx absPath steps [] st in
       ((acc ++ outs, err), st')).
Proof.
  induction steps as [|step rest IH]; intros acc st; simpl.
  - unfold ret. now rewrite app_nil_r.
  - unfold bind.
    destruct (runStep p ctx absPath step st) as [[out [e|]] st1].
    + unfold ret. destruct (out =? ""); simpl; now rewrite ?app_nil_r.
    + rewrite (IH (if out =? "" then acc else acc ++ [out])).
      rewrite (IH (if out =? "" then [] else [] ++ [out])).
      destruct (runSteps_loop p ctx absPath rest [] st1) as [[outs err] st2].
      destruct (out =? ""); simpl; [reflexivity|].
      now rewrite <- app_assoc.
Qed.

(** X14: [runSteps] on a sequence in two parts: if the first part fails,
    the result is that of the first part alone and the second part is not
    looked at; if it succeeds, the second part runs from the state the
    first one left and its outputs follow those of the first. *)
Theorem runSteps_app (front back : list Step) (st : State W) :
  runSteps p (front ++ back) ctx absPath st
  = match runSteps p front ctx absPath st with
    | ((outs, Some e), st1) => ((outs, Some e), st1)
    | ((outs, None), st1) =>
        let '((outs2, err), st2) := runSteps p back ctx absPath st1 in
        ((outs ++ outs2, err), st2)
    end.
Proof.
  unfold runSteps. generalize (@nil string) at 1 2 as acc.
  revert st.
  induction front as [|step rest IH]; intros st acc; simpl.
  - unfold ret. apply runSteps_loop_acc.
  - unfold bind.
    destruct (runStep p ctx absPath step st) as [[out [e|]] st1];
      [reflexivity|].
    apply IH.
Qed.

(** X15: no output [runSteps] returns is empty, and it returns at most one
    output for each step. *)
Theorem runSteps_outputs_nonempty (steps : list Step) (st : State W) :
  Forall (fun out => out <> "") (fst (fst (runSteps p steps ctx absPath st))) /\
  length (fst (fst (runSteps p steps ctx absPath st))) <= length steps.
Proof.
  unfold runSteps.
  destruct (runSteps_loop p ctx absPath steps [] st) as [[outs err] st'] eqn:Hrun.
  destruct (runSteps_loop_prefix W p ctx absPath steps [] st outs err st' Hrun)
    as (n & results & Hn & Heach & Houts & _).
  simpl in *. subst outs. split.
  - apply Forall_forall. intros out Hin.
    unfold nonEmptyOutputs in Hin. apply filter_In in Hin.
    destruct Hin as [_ Hne]. apply negb_true_iff in Hne.
    now apply String.eqb_neq.
  - pose proof (runEach_length W p ctx absPath (firstn n steps) st) as Hlen.
    rewrite Heach in Hlen. simpl in Hlen.
    rewrite firstn_length_le in Hlen by exact Hn.
    unfold nonEmptyOutputs.
    pose proof (filter_length_le (fun out => negb (out =? ""))
                  (map fst results)) as Hle.
    rewrite length_map in Hle. lia.
Qed.

(** With step runners that never fail, neither does a step. *)
Lemma runStep_never_fails (step : Step) (st : State W) :
  stepsNeverFail p ->
  snd (fst (runStep p ctx absPath step st)) = None.
Proof.
  intros Hok. unfold runStep.
  repeat match goal with
         | |- context [if ?b then _ else _] => destruct b
         end;
    try reflexivity;
    unfold call;
    match goal with
    | |- context [Run ?r ?c ?a ?q ?w] =>
        pose proof (Hok r ltac:(simpl; auto) c a q w) as Hr;
        destruct (Run r c a q w) as [[out err] w']
    end; exact Hr.
Qed.

(** With step runners that never fail, no step of a sequence run to its
    end fails. *)
Lemma runEach_never_fails (steps : list Step) :
  stepsNeverFail p ->
  forall st : State W,
    Forall (fun r => snd r = None) (fst (runEach p ctx absPath steps st)).
Proof.
  intros Hok.
  induction steps as [|step rest IH]; intros st; simpl; [constructor|].
  unfold bind at 1.
  pose proof (runStep_never_fails step st Hok) as Hnone.
  destruct (runStep p ctx absPath step st) as [r st1].
  unfold bind at 1. specialize (IH st1).
  destruct (runEach p ctx absPath rest st1) as [rs st2].
  simpl in *. constructor; assumption.
Qed.

(** X16: with step runners that never return an error, [runSteps] executes
    every step of the sequence, each by the step runner its name selects,
    in order: it ends in the state the executors of the whole sequence
    leave, returns their non-empty outputs in order and no error, and the
    trace has grown by the call of every step with a known name. *)
Theorem runSteps_succeeds_when_steps_do (steps : list Step) (st : State W) :
  stepsNeverFail p ->
  exists results,
    executeInOrder p ctx absPath steps st
      = (results, snd (runSteps p steps ctx absPath st)) /\
    fst (runSteps p steps ctx absPath st)
      = (nonEmptyOutputs (map fst results), None) /\
    trace (snd (runSteps p steps ctx absPath st))
      = trace st ++ flat_map (dispatch absPath) steps.
Proof.
  intros Hok. unfold runSteps.
  destruct (runSteps_loop p ctx absPath steps [] st) as [[outs err] st'] eqn:Hrun.
  destruct (runSteps_loop_prefix W p ctx absPath steps [] st outs err st' Hrun)
    as (n & results & Hn & Heach & Houts & Herr).
  pose proof (runEach_never_fails (firstn n steps) Hok st) as Hall.
  rewrite Heach in Hall. simpl in Hall.
  destruct err as [e|].
  - destruct Herr as (out & front & -> & _).
    apply Forall_app in Hall. destruct Hall as [_ Hlast].
    inversion Hlast as [|x l Hx _]; subst. discriminate Hx.
  - destruct Herr as [-> _]. rewrite firstn_all in Heach.
    exists results. simpl. split; [|split].
    + now rewrite <- (runEach_executeInOrder W p ctx absPath).
    + now rewrite Houts.
    + pose proof (runEach_trace W p ctx absPath steps st) as Htr.
      now rewrite Heach in Htr.
Qed.

End PipelineMore.

(** * The rest of the GitHub client *)

Section GithubCalls.

Import vcs.
Import githubClient.

Variable W : Type.
Variable g : github.Client W.
Variable repo : Repo.
Variable pull : PullRequest.

(** The page a request asks for is the loop's [nextPage], also when that
    is zero and [opts.Page] is left unset. *)
Lemma page_of_nextPage (nextPage : Z) :
  (if (nextPage =? 0)%Z then 0%Z else nextPage) = nextPage.
Proof.
  destruct (Z.eqb_spec nextPage 0); congruence.
Qed.

Lemma GetModifiedFiles_loop_serves
    (pages : list (list (option github.CommitFile) * Z)) (wEnd : W) :
  forall (fuel : nat) (page : Z) (files : list string) (w : W),
    serves g repo pull page w pages wEnd ->
    length pages <= fuel ->
    GetModifiedFiles_loop fuel g repo pull page files w
    = Some (Returned (files ++ namesOf pages, None), wEnd).
Proof.
  induction pages as [|[pageFiles next] rest IH];
    intros fuel page files w Hserves Hfuel; [destruct Hserves|].
  destruct fuel as [|fuel]; [simpl in Hfuel; lia|].
  simpl in Hserves. destruct Hserves as (w' & Hcall & Hrest).
  simpl. rewrite page_of_nextPage, Hcall. simpl.
  destruct rest as [|next_page rest'].
  - destruct Hrest as [-> ->]. simpl.
    unfold namesOf. simpl. now rewrite app_nil_r.
  - destruct Hrest as [Hnext Hrest].
    destruct (Z.eqb_spec next 0) as [Hz|_]; [contradiction|].
    rewrite (IH fuel next _ w' Hrest) by (simpl in *; lia).
    unfold namesOf. simpl. now rewrite <- app_assoc.
Qed.

(** X17: when the service serves the files of the pull request in pages,
    each page but the last naming the next one, [GetModifiedFiles] asks for
    them one after the other, 300 files to the page, starting without a
    page number, and returns the file names of all pages in order with no
    error, once the loop is given as many rounds as there are pages. *)
Theorem GetModifiedFiles_collects_pages
    (pages : list (list (option github.CommitFile) * Z)) (w wEnd : W)
    (fuel : nat) :
  serves g repo pull 0 w pages wEnd ->
  length pages <= fuel ->
  GetModifiedFiles fuel g repo pull w
  = Some (Returned (namesOf pages, None), wEnd).
Proof.
  intros Hserves Hfuel. unfold GetModifiedFiles.
  now rewrite (GetModifiedFiles_loop_serves pages wEnd fuel 0 [] w).
Qed.

Lemma GetModifiedFiles_loop_fails
    (pages : list (list (option github.CommitFile) * Z)) (e : error)
    (wEnd : W) :
  forall (fuel : nat) (page : Z) (files : list string) (w : W),
    servesThenFails g repo pull page w pages e wEnd ->
    length pages < fuel ->
    GetModifiedFiles_loop fuel g repo pull page files w
    = Some (Returned (files ++ namesOf pages, Some e), wEnd).
Proof.
  induction pages as [|[pageFiles next] rest IH];
    intros fuel page files w Hserves Hfuel;
    (destruct fuel as [|fuel]; [simpl in Hfuel; lia|]).
  - destruct Hserves as (pageFiles & resp & Hcall).
    simpl. rewrite page_of_nextPage, Hcall. simpl.
    unfold namesOf. simpl. now rewrite app_nil_r.
  - simpl in Hserves. destruct Hserves as (w' & Hcall & Hnext & Hrest).
    simpl. rewrite page_of_nextPage, Hcall. simpl.
    destruct (Z.eqb_spec next 0) as [Hz|_]; [contradiction|].
    rewrite (IH fuel next _ w' Hrest) by (simpl in *; lia).
    unfold namesOf. simpl. now rewrite <- app_assoc.
Qed.

(** X18: when a request for a page fails, [GetModifiedFiles] returns the
    error together with the file names of the pages it had already read;
    so an error on the first request comes with no file name. *)
Theorem GetModifiedFiles_error_keeps_files
    (pages : list (list (option github.CommitFile) * Z)) (e : error)
    (w wEnd : W) (fuel : nat) :
  servesThenFails g repo pull 0 w pages e wEnd ->
  length pages < fuel ->
  GetModifiedFiles fuel g repo pull w
  = Some (Returned (namesOf pages, Some e), wEnd).
Proof.
  intros Hserves Hfuel. unfold GetModifiedFiles.
  now rewrite (GetModifiedFiles_loop_fails pages e wEnd fuel 0 [] w).
Qed.


(** The loop of [CreateComment], comment by comment. *)
Lemma CreateComment_loop_prefix (pullNum : Z) (comments : list string) :
  forall (w : W),
  exists (n : nat) (errs : list (option error)),
    n <= length comments /\
    length errs = n /\
    postEach g repo pullNum (firstn n comments) w
      = (errs, snd (CreateComment_loop g repo pullNum comments w)) /\
    match fst (CreateComment_loop g repo pullNum comments w) with
    | None => n = length comments /\ Forall (fun err => err = None) errs
    | Some e =>
        exists front,
          errs = front ++ [Some e] /\ Forall (fun err => err = None) front
    end.
Proof.
  induction comments as [|c rest IH]; intros w; simpl.
  - exists 0, []. simpl. auto.
  - destruct (github.Issues_CreateComment g (Owner repo) (Name repo)
                pullNum c w) as [[e|] w'] eqn:Hpost.
    + exists 1, [Some e]. simpl. rewrite Hpost. simpl.
      repeat split; auto with arith. exists []. auto.
    + destruct (IH w') as (n & errs & Hn & Hlen & Heach & Herr).
      exists (S n), (None :: errs). simpl. rewrite Hpost, Heach.
      split; [lia|]. split; [now rewrite Hlen|]. split; [reflexivity|].
      destruct (fst (CreateComment_loop g repo pullNum rest w')) as [e|].
      * destruct Herr as (front & -> & Hfront).
        exists (None :: front). split; [reflexivity|]. now constructor.
      * destruct Herr as [-> Hall]. split; [reflexivity|]. now constructor.
Qed.

(** X20: [CreateComment] posts the pieces the comment is split into in
    their order, each as a comment of its own, and stops at the first post
    that fails: it has then posted that piece and the ones before it and
    none after, and returns that post's error; it returns no error exactly
    when it has posted every piece and no post failed. *)
Theorem CreateComment_posts_in_order_until_first_error
    (SplitComment : string -> Z -> string -> string -> list string)
    (pullNum : Z) (comment : string) (w : W) :
  let comments := SplitComment comment 65536%Z sepEnd sepStart in
  exists (n : nat) (errs : list (option error)),
    n <= length comments /\
    length errs = n /\
    postEach g repo pullNum (firstn n comments) w
      = (errs, snd (CreateComment SplitComment g repo pullNum comment w)) /\
    match fst (CreateComment SplitComment g repo pullNum comment w) with
    | None => n = length comments /\ Forall (fun err => err = None) errs
    | Some e =>
        exists front,
          errs = front ++ [Some e] /\ Forall (fun err => err = None) front
    end.
Proof.
  intros comments. unfold CreateComment.
  apply CreateComment_loop_prefix.
Qed.

(** X21: whatever the commit status, the status [UpdateStatus] creates on
    the head commit of the pull request has one of the four states pending,
    success, failure and error, the description it was given and the
    context Atlantis; the state is error for every status that is none of
    the three the code names; and the error of the call is returned as it
    is. *)
Theorem UpdateStatus_creates_valid_status
    (PendingCommitStatus SuccessCommitStatus FailedCommitStatus : Z)
    (state : Z) (description : string) (w : W) :
  exists s,
    In s ["pending"; "success"; "failure"; "error"] /\
    UpdateStatus PendingCommitStatus SuccessCommitStatus FailedCommitStatus
      g repo pull state description w
    = github.Repositories_CreateStatus g (Owner repo) (Name repo)
        (HeadCommit pull)
        {| github.State := Some s;
           github.Description := Some description;
           github.Context := Some "Atlantis" |} w /\
    (state <> PendingCommitStatus -> state <> SuccessCommitStatus ->
     state <> FailedCommitStatus -> s = "error").
Proof.
  unfold UpdateStatus, ghState.
  destruct (Z.eqb_spec state PendingCommitStatus);
    [|destruct (Z.eqb_spec state SuccessCommitStatus);
      [|destruct (Z.eqb_spec state FailedCommitStatus)]];
    eexists; (split; [|split; [reflexivity|]]);
    simpl; auto; intros; congruence.
Qed.

End GithubCalls.

(** * The further theorems at the concrete collaborators *)

(** X4 at the runner whose project locker cannot reach its store. *)
Lemma Plan_locker_error_witness :
  let ctx := Demo.ctxOf 1 "." None in
  Demo.plan DemoMore.unreachableLocker ctx (Demo.start Demo.idle)
  = (unsuccessful ctx ""
       (Some {| Error_ := "acquiring lock: connection refused";
                notExist := false |}),
     {| world := Demo.idle;
        trace := [evLockerTryLock Demo.NewProject ctx] |}).
Proof.
  intros ctx.
  exact (Plan_locker_error Demo.World Demo.NewProject Demo.filepath_Join
           DemoMore.unreachableLocker ctx (Demo.start Demo.idle)
           _ (errors.New "connection refused") Demo.idle eq_refl).
Defined.

(** X5 at the concrete runner, for a plan that succeeds. *)
Lemma Plan_releases_workdir_lock_last_witness :
  let p := Demo.okRunner (true, None) false in
  let ctx := Demo.ctxOf 1 "." None in
  let st := Demo.start Demo.idle in
  exists w t,
    snd (Demo.plan p ctx st)
    = {| world := DemoMore.release w; trace := t ++ [EvWorkingDirUnlock] |} /\
    count is_workdir_unlock t = count is_workdir_unlock (trace st).
Proof.
  intros p ctx st.
  exact (Plan_releases_workdir_lock_last Demo.World Demo.NewProject
           Demo.filepath_Join p ctx st
           (fst (fst (Demo.locker (Pull ctx) (User_ ctx) (Workspace ctx)
                        (Demo.NewProject "owner/repo" ".") Demo.idle)))
           {| Demo.holder := Some 1%Z; Demo.wdLocked := false;
              Demo.cloned := false |}
           {| Demo.holder := Some 1%Z; Demo.wdLocked := true;
              Demo.cloned := false |}
           DemoMore.release eq_refl eq_refl eq_refl).
Defined.

(** X6 at the concrete runner. *)
Lemma Plan_success_witness :
  let p := Demo.okRunner (true, None) false in
  let ctx := Demo.ctxOf 1 "." None in
  fst (Demo.plan p ctx (Demo.start Demo.idle))
  = {| PlanSuccess :=
         Some {| TerraformOutput := "init ok" ++ nl ++ "plan ok";
                 LockURL := "https://atlantis/lock?id=key";
                 ps_RePlanCmd := "atlantis plan -d .";
                 ps_ApplyCmd := "atlantis apply -d ." |};
       ApplySuccess := "";
       Failure := "";
       Error := None;
       pr_RepoRelDir := ".";
       pr_Workspace := "default";
       pr_ProjectName := "" |}.
Proof.
  intros p ctx.
  exact (f_equal fst
           (Plan_success Demo.World Demo.NewProject Demo.filepath_Join p ctx
              (Demo.start Demo.idle)
              (fst (fst (Demo.locker (Pull ctx) (User_ ctx) (Workspace ctx)
                           (Demo.NewProject "owner/repo" ".") Demo.idle)))
              {| Demo.holder := Some 1%Z; Demo.wdLocked := false;
                 Demo.cloned := false |}
              {| Demo.holder := Some 1%Z; Demo.wdLocked := true;
                 Demo.cloned := false |}
              {| Demo.holder := Some 1%Z; Demo.wdLocked := true;
                 Demo.cloned := true |}
              {| Demo.holder := Some 1%Z; Demo.wdLocked := true;
                 Demo.cloned := true |}
              DemoMore.release "/data/repo" (defaultPlanStage p)
              _ _ ["init ok"; "plan ok"] "https://atlantis/lock?id=key"
              eq_refl eq_refl eq_refl eq_refl eq_refl eq_refl eq_refl)).
Defined.

(** X11 at the concrete runner: the repository is cloned and another
    command holds the working-directory lock. *)
Lemma Apply_workdir_lock_failure_witness :
  let p := Demo.okRunner (true, None) false in
  let ctx := Demo.ctxOf 1 "." None in
  Demo.apply p ctx (Demo.start Demo.busyDir)
  = (unsuccessful ctx ""
       (Some (errors.New
                "the workspace is currently locked by another command")),
     {| world := Demo.busyDir;
        trace := [evGetWorkingDir ctx; evWorkingDirTryLock ctx] |}).
Proof.
  intros p ctx.
  exact (Apply_workdir_lock_failure Demo.World Demo.filepath_Join p ctx
           (Demo.start Demo.busyDir)
           {| world := Demo.busyDir; trace := [evGetWorkingDir ctx] |}
           "/data/repo" Demo.busyDir Demo.busyDir (fun w => w)
           (errors.New "the workspace is currently locked by another command")
           eq_refl eq_refl eq_refl).
Defined.

(** X12 at the concrete runner, after a plan. *)
Lemma Apply_success_witness :
  let p := Demo.okRunner (true, None) false in
  let ctx := Demo.ctxOf 1 "." None in
  fst (Demo.apply p ctx (Demo.start Demo.afterPlan))
  = {| PlanSuccess := None;
       ApplySuccess := "apply ok";
       Failure := "";
       Error := None;
       pr_RepoRelDir := ".";
       pr_Workspace := "default";
       pr_ProjectName := "" |}.
Proof.
  intros p ctx.
  exact (f_equal fst
           (Apply_success Demo.World Demo.filepath_Join p ctx
              (Demo.start Demo.afterPlan)
              {| world := Demo.afterPlan; trace := [evGetWorkingDir ctx] |}
              _ "/data/repo" Demo.afterPlan
              {| Demo.holder := Some 1%Z; Demo.wdLocked := true;
                 Demo.cloned := true |}
              {| Demo.holder := Some 1%Z; Demo.wdLocked := true;
                 Demo.cloned := true |}
              DemoMore.release ["apply ok"] None
              eq_refl eq_refl eq_refl eq_refl eq_refl)).
Defined.

(** X13 at the concrete runner, for requirements that name "approved"
    twice and one other requirement. *)
Lemma checkRequirements_all_approved_witness :
  let p := Demo.okRunner (true, None) false in
  let ctx := Demo.ctxOf 1 "." (Some DemoMore.twiceApproved) in
  checkRequirements p ctx (applyRequirements p ctx)
    (Demo.start Demo.afterPlan)
  = (None,
     {| world := Demo.afterPlan;
        trace := [evPullIsApproved ctx; evPullIsApproved ctx] |}).
Proof.
  intros p ctx.
  exact (checkRequirements_all_approved Demo.World p ctx
           (applyRequirements p ctx) (Demo.start Demo.afterPlan)
           (fun w => eq_refl)).
Defined.

(** X16 at the concrete runner, for the steps init, show, plan. *)
Lemma runSteps_succeeds_when_steps_do_witness :
  let p := Demo.okRunner (true, None) false in
  let ctx := Demo.ctxOf 1 "." None in
  let steps :=
    [ {| StepName := "init"; ExtraArgs := ["-upgrade"]; RunCommand := [] |};
      {| StepName := "show"; ExtraArgs := []; RunCommand := [] |};
      {| StepName := "plan"; ExtraArgs := []; RunCommand := [] |} ] in
  let st := Demo.start Demo.idle in
  stepsNeverFail p /\
  exists results,
    executeInOrder p ctx "/data/repo" steps st
      = (results, snd (runSteps p steps ctx "/data/repo" st)) /\
    fst (runSteps p steps ctx "/data/repo" st)
      = (nonEmptyOutputs (map fst results), None) /\
    trace (snd (runSteps p steps ctx "/data/repo" st))
      = [EvRun InitStepRunner_ ["-upgrade"] "/data/repo";
         EvRun PlanStepRunner_ [] "/data/repo"].
Proof.
  intros p ctx steps st.
  assert (Hok : stepsNeverFail p).
  { intros r [<-|[<-|[<-|[<-|[]]]]] c a q w; reflexivity. }
  split; [exact Hok|].
  exact (runSteps_succeeds_when_steps_do Demo.World p ctx "/data/repo" steps
           st Hok).
Defined.

(** X17 at a service with two pages. *)
Lemma GetModifiedFiles_collects_pages_witness :
  let g := githubClient.scripted
             [(["main.tf"; "vars.tf"], 2%Z); (["modules/vpc/main.tf"], 0%Z)] in
  githubClient.GetModifiedFiles 5 g Demo.repo DemoMore.pull7 0
  = Some (vcs.Returned
            (["main.tf"; "vars.tf"; "modules/vpc/main.tf"], None), 2).
Proof.
  intros g.
  apply (GetModifiedFiles_collects_pages nat g Demo.repo DemoMore.pull7
           [([Some {| github.Filename := Some "main.tf" |};
              Some {| github.Filename := Some "vars.tf" |}], 2%Z);
            ([Some {| github.Filename := Some "modules/vpc/main.tf" |}], 0%Z)]
           0 2 5).
  - simpl. eexists. split; [reflexivity|]. split; [lia|].
    eexists. split; [reflexivity|]. split; reflexivity.
  - simpl. lia.
Defined.

(** X18 at a service whose first page names a second one that it does not
    have. *)
Lemma GetModifiedFiles_error_keeps_files_witness :
  let g := githubClient.scripted [(["main.tf"; "vars.tf"], 2%Z)] in
  githubClient.GetModifiedFiles 5 g Demo.repo DemoMore.pull7 0
  = Some (vcs.Returned
            (["main.tf"; "vars.tf"], Some (errors.New "404 Not Found")), 2).
Proof.
  intros g.
  apply (GetModifiedFiles_error_keeps_files nat g Demo.repo DemoMore.pull7
           [([Some {| github.Filename := Some "main.tf" |};
              Some {| github.Filename := Some "vars.tf" |}], 2%Z)]
           (errors.New "404 Not Found") 0 2 5).
  - simpl. eexists. split; [reflexivity|]. split; [lia|].
    do 2 eexists. reflexivity.
  - simpl. lia.
Defined.

